(** * Reporting dashboard: reshape, filter and aggregation pipeline of [app.py]

    A shallow embedding of the tabular logic of the dashboard: the wide-to-long
    reshape [to_long], the sidebar filter ([multiselect_all], [mask], [dff]),
    the aggregations behind the metric cards, charts and ranking tables, and
    the CSV export.

    Conventions of the embedding.
    - A pandas frame is a list of rows; a float column holds [option Q], where
      [None] is NaN and [Some q] the number that the entry denotes.
    - An object column holds [cell]s: a blank (NaN), a number or a text.
    - What pandas, NumPy and Python compute outside of [app.py] (parsing a text
      as a number, printing a float or a date, the sum of a column and of a
      group in the arithmetic of the column, the single-key sort of
      [sort_values] under its default [kind]) is an interface, [Runtime],
      of which the properties are stated for every implementation.  Its
      reference implementation adds in binary64, as [Float64] spells out;
      [Int64] has the sums of a column of whole numbers. *)

From Stdlib Require Import String Ascii List ZArith QArith Lia Bool Arith.
From Stdlib Require Import Permutation Sorted Lqa.
From Stdlib Require Import Floats.SpecFloat.
Import ListNotations.

Local Open Scope list_scope.

(** ** Generic list utilities (Python and pandas primitives) *)

Section ListPrims.
Context {A : Type}.

(** [not l] for a Python list: true on the empty list. *)
Definition is_empty (l : list A) : bool :=
  match l with [] => true | _ :: _ => false end.

Variable eqb : A -> A -> bool.

(** [x in l] / [Series.isin]. *)
Definition isin (x : A) (l : list A) : bool := existsb (eqb x) l.

(** [Series.unique]: distinct values in order of first appearance. *)
Fixpoint unique_acc (seen l : list A) : list A :=
  match l with
  | [] => []
  | x :: l' =>
      if isin x seen then unique_acc seen l'
      else x :: unique_acc (x :: seen) l'
  end.

Definition unique (l : list A) : list A := unique_acc [] l.

Variable leb : A -> A -> bool.

(** [sorted(l)]: a stable ascending sort. *)
Fixpoint insert_sorted (x : A) (l : list A) : list A :=
  match l with
  | [] => [x]
  | y :: l' => if leb x y then x :: y :: l' else y :: insert_sorted x l'
  end.

Definition sorted (l : list A) : list A := fold_right insert_sorted [] l.
End ListPrims.

(** [DataFrame.head(n)] for a count [n]. *)
Definition head {A : Type} (n : nat) (l : list A) : list A := firstn n l.

(** ** Data model *)

(** A timestamp: calendar date and the nanoseconds elapsed since midnight. *)
Record Timestamp : Type := mkTimestamp {
  ts_year : Z;
  ts_month : Z;
  ts_day : Z;
  ts_time : Z
}.

Definition ts_compare (a b : Timestamp) : comparison :=
  match Z.compare (ts_year a) (ts_year b) with
  | Eq =>
      match Z.compare (ts_month a) (ts_month b) with
      | Eq =>
          match Z.compare (ts_day a) (ts_day b) with
          | Eq => Z.compare (ts_time a) (ts_time b)
          | c => c
          end
      | c => c
      end
  | c => c
  end.

Definition ts_eqb (a b : Timestamp) : bool :=
  match ts_compare a b with Eq => true | _ => false end.

Definition ts_leb (a b : Timestamp) : bool :=
  match ts_compare a b with Gt => false | _ => true end.

(** [.dt.to_period("M").dt.to_timestamp()]: the first instant of the month. *)
Definition first_of_month (t : Timestamp) : Timestamp :=
  mkTimestamp (ts_year t) (ts_month t) 1 0.

(** A column header: a text, or a date object ([pd.Timestamp],
    [datetime.datetime], [datetime.date]). *)
Inductive label : Type :=
| LText (s : string)
| LDate (t : Timestamp).

Definition label_eqb (a b : label) : bool :=
  match a, b with
  | LText s, LText s' => String.eqb s s'
  | LDate t, LDate t' => ts_eqb t t'
  | _, _ => false
  end.

(** The content of one spreadsheet cell. *)
Inductive cell : Type :=
| NaN
| Num (q : Q)
| Text (s : string).

(** A frame as read from the sheet: headers, and rows of cells aligned with
    the headers. *)
Record DataFrame : Type := mkDataFrame {
  columns : list label;
  data : list (list cell)
}.

(** One row of the long table. *)
Record LongRow : Type := mkLongRow {
  Client : cell;
  Job : cell;
  Job_description : cell;
  Data_type : cell;
  Month : Timestamp;
  Value : option Q
}.

(** What the interpreter and the libraries provide. *)
Class Runtime : Type := mkRuntime {
  (** the number a text denotes for [pd.to_numeric]; [None] when it denotes
      none (or denotes NaN) *)
  parse_float : string -> option Q;
  (** [str] of a float *)
  float_repr : Q -> string;
  (** how a timestamp is printed *)
  date_repr : Timestamp -> string;
  (** [Series.sum()] over the entries that are not NaN, in the arithmetic of
      the column: float64 additions, each rounded, or int64 additions that
      wrap around *)
  series_sum : list Q -> Q;
  (** the sum of one group in [groupby(...).sum()] and in
      [agg(... "sum")], which has a summation loop of its own *)
  group_sum : list Q -> Q;
  (** the indexer of [sort_values(<one column>, ascending=False)] under the
      default [kind="quicksort"], which is not a stable sort: a permutation of
      the positions along which the values do not increase *)
  argsort_desc : list Q -> list nat;
  argsort_desc_perm :
    forall vs, Permutation (argsort_desc vs) (seq 0 (length vs));
  argsort_desc_sorted :
    forall vs, StronglySorted (fun i j => (nth j vs 0 <= nth i vs 0)%Q)
                 (argsort_desc vs);
  (** only a NaN prints as [nan] *)
  float_repr_number : forall q, float_repr q <> "nan"%string
}.

(** ** Data loading and shaping *)

Definition ID_COLS : list label :=
  [LText "Client"; LText "Job"; LText "Job description"; LText "Data type"].

Inductive error : Type :=
| MissingColumns (missing found : list label)
| NoMonthColumns
| ValueNameClash.   (* [melt]: value_name cannot match a column *)

Definition is_date (c : label) : bool :=
  match c with LDate _ => true | LText _ => false end.

(** The date headers, in header order. *)
Fixpoint date_columns (cols : list label) : list Timestamp :=
  match cols with
  | [] => []
  | LDate t :: cols' => t :: date_columns cols'
  | LText _ :: cols' => date_columns cols'
  end.

Definition detect_month_cols (df : DataFrame) : list Timestamp :=
  sorted ts_leb (date_columns (columns df)).

(** Position of a header ([Index.get_loc]). *)
Fixpoint get_loc (c : label) (cols : list label) : option nat :=
  match cols with
  | [] => None
  | c' :: cols' =>
      if label_eqb c c' then Some 0%nat else option_map S (get_loc c cols')
  end.

(** The cell of [row] under header [c]. *)
Definition at_col (cols : list label) (row : list cell) (c : label) : cell :=
  match get_loc c cols with
  | Some i => nth i row NaN
  | None => NaN
  end.

(** One row of the frame returned by [melt]. *)
Record MeltRow : Type := mkMeltRow {
  m_client : cell;
  m_job : cell;
  m_description : cell;
  m_type : cell;
  m_variable : Timestamp;
  m_value : cell
}.

(** [df.melt(id_vars=ID_COLS, value_vars=value_cols, ...,
    value_name="Value")]: the identifier columns are repeated once per value
    column, and the value columns are stacked one below the other.  [melt]
    raises when the frame already has a column of the name given to the
    value column; [None] stands for that error. *)
Definition melt (df : DataFrame) (value_cols : list Timestamp)
  : option (list MeltRow) :=
  if isin label_eqb (LText "Value") (columns df) then None
  else
    Some
      (flat_map
         (fun t =>
            map (fun row =>
                   let get := at_col (columns df) row in
                   mkMeltRow (get (LText "Client")) (get (LText "Job"))
                     (get (LText "Job description")) (get (LText "Data type"))
                     t (get (LDate t)))
                (data df))
         value_cols).

(** [pd.to_numeric(..., errors="coerce")] on one cell. *)
Definition to_numeric `{Runtime} (c : cell) : option Q :=
  match c with
  | NaN => None
  | Num q => Some q
  | Text s => parse_float s
  end.

(** [Series.fillna(d)] on one entry. *)
Definition fillna (d : Q) (x : option Q) : option Q :=
  match x with
  | Some q => Some q
  | None => Some d
  end.

Definition long_of_melt `{Runtime} (m : MeltRow) : LongRow :=
  mkLongRow (m_client m) (m_job m) (m_description m) (m_type m)
    (first_of_month (m_variable m))
    (fillna 0 (to_numeric (m_value m))).

Definition to_long `{Runtime} (df_wide : DataFrame)
  : error + (list LongRow * list Timestamp) :=
  let df := df_wide in
  let missing :=
    filter (fun c => negb (isin label_eqb c (columns df))) ID_COLS in
  if negb (is_empty missing) then inl (MissingColumns missing (columns df))
  else
    let month_cols := detect_month_cols df in
    if is_empty month_cols then inl NoMonthColumns
    else
      let value_cols := date_columns (columns df) in
      match melt df value_cols with
      | None => inl ValueNameClash
      | Some melted =>
          let df_long := map long_of_melt melted in
          let months := sorted ts_leb (unique ts_eqb (map Month df_long)) in
          inr (df_long, months)
      end.

(** ** Sidebar filter *)

Definition notna (c : cell) : bool :=
  match c with NaN => false | _ => true end.

(** [Series.astype(str)] on one entry of an object column: a blank becomes
    the text of a float NaN. *)
Definition astype_str `{Runtime} (c : cell) : string :=
  match c with
  | NaN => "nan"
  | Num q => float_repr q
  | Text s => s
  end.

(** [sorted(col.dropna().astype(str).unique().tolist())]. *)
Definition options_of `{Runtime} (col : list cell) : list string :=
  sorted String.leb (unique String.eqb (map astype_str (filter notna col))).

(** [multiselect_all]: [selected] is what the multiselect widget returns, a
    sub-list of [options]; the function returns [selected or options]. *)
Definition multiselect_all (selected options : list string) : list string :=
  if is_empty selected then options else selected.

(** The state of the sidebar widgets. *)
Record Sidebar : Type := mkSidebar {
  start_m : Timestamp;
  end_m : Timestamp;
  picked_types : list string;
  picked_clients : list string;
  picked_services : list string;
  top_n : nat
}.

Definition mask `{Runtime} (start_m end_m : Timestamp)
    (selected_types selected_clients selected_services : list string)
    (r : LongRow) : bool :=
  ts_leb start_m (Month r)
  && ts_leb (Month r) end_m
  && isin String.eqb (astype_str (Data_type r)) selected_types
  && isin String.eqb (astype_str (Client r)) selected_clients
  && isin String.eqb (astype_str (Job_description r)) selected_services.

Definition data_types `{Runtime} (df_long : list LongRow) : list string :=
  options_of (map Data_type df_long).

Definition clients `{Runtime} (df_long : list LongRow) : list string :=
  options_of (map Client df_long).

Definition services `{Runtime} (df_long : list LongRow) : list string :=
  options_of (map Job_description df_long).

(** The filtered table [dff]. *)
Definition dff `{Runtime} (df_long : list LongRow) (w : Sidebar) : list LongRow :=
  let selected_types := multiselect_all (picked_types w) (data_types df_long) in
  let selected_clients := multiselect_all (picked_clients w) (clients df_long) in
  let selected_services :=
    multiselect_all (picked_services w) (services df_long) in
  filter (mask (start_m w) (end_m w)
            selected_types selected_clients selected_services)
         df_long.

(** The selections the widgets can return: sub-lists of the offered options. *)
Definition selectable `{Runtime} (df_long : list LongRow) (w : Sidebar) : Prop :=
  incl (picked_types w) (data_types df_long)
  /\ incl (picked_clients w) (clients df_long)
  /\ incl (picked_services w) (services df_long).

(** The script from the loaded sheet down to the filtered table: an error of
    [to_long] ends the run. *)
Definition script `{Runtime} (df_wide : DataFrame) (w : Sidebar)
  : error + list LongRow :=
  match to_long df_wide with
  | inl e => inl e
  | inr (df_long, months) => inr (dff df_long w)
  end.

(** ** Aggregations *)

Definition Qltb (a b : Q) : bool := negb (Qle_bool b a).

Definition sumQ (vs : list Q) : Q := fold_left Qplus vs 0.

(** The entries of a float column that are not NaN. *)
Fixpoint valid (col : list (option Q)) : list Q :=
  match col with
  | [] => []
  | Some q :: col' => q :: valid col'
  | None :: col' => valid col'
  end.

(** [Series.sum()]: NaN entries are skipped. *)
Definition Series_sum `{Runtime} (col : list (option Q)) : Q :=
  series_sum (valid col).

(** The sum of the column of one group. *)
Definition Group_sum `{Runtime} (col : list (option Q)) : Q :=
  group_sum (valid col).

Definition cell_eqb (a b : cell) : bool :=
  match a, b with
  | NaN, NaN => true
  | Num x, Num y => Qeq_bool x y
  | Text s, Text s' => String.eqb s s'
  | _, _ => false
  end.

(** Order of group keys: numbers before texts. *)
Definition cell_leb (a b : cell) : bool :=
  match a, b with
  | _, NaN => true
  | NaN, _ => false
  | Num x, Num y => Qle_bool x y
  | Num _, Text _ => true
  | Text _, Num _ => false
  | Text s, Text s' => String.leb s s'
  end.

(** The group key of an object cell: a blank belongs to no group. *)
Definition cell_key (c : cell) : option cell :=
  match c with NaN => None | _ => Some c end.

Section GroupBy.
Context `{RT : Runtime} {K : Type}.
Variables (eqb leb : K -> K -> bool) (key : LongRow -> option K).

Fixpoint present_keys (rows : list LongRow) : list K :=
  match rows with
  | [] => []
  | r :: rows' =>
      match key r with
      | Some k => k :: present_keys rows'
      | None => present_keys rows'
      end
  end.

(** The keys of the groups, sorted ([groupby] with [sort=True]); rows of
    which the key is null are dropped ([dropna=True]). *)
Definition group_keys (rows : list LongRow) : list K :=
  sorted leb (unique eqb (present_keys rows)).

Definition in_group (k : K) (r : LongRow) : bool :=
  match key r with
  | Some k' => eqb k' k
  | None => false
  end.

Definition groupby (rows : list LongRow) : list (K * list LongRow) :=
  map (fun k => (k, filter (in_group k) rows)) (group_keys rows).

(** [groupby(key, as_index=False)["Value"].sum()]. *)
Definition groupby_sum (rows : list LongRow) : list (K * Q) :=
  map (fun g => (fst g, Group_sum (map Value (snd g)))) (groupby rows).
End GroupBy.

(** [float(dff["Value"].sum())]: the conversion leaves a float64 sum as
    it is. *)
Definition revenue_total `{Runtime} (dff : list LongRow) : Q :=
  Series_sum (map Value dff).

(** The frame [m] plotted by [line_revenue_by_month]. *)
Definition line_revenue_by_month `{Runtime} (df_ : list LongRow)
  : list (Timestamp * Q) :=
  groupby_sum ts_eqb ts_leb (fun r => Some (Month r)) df_.

Definition client_rev `{Runtime} (dff : list LongRow) : list (cell * Q) :=
  groupby_sum cell_eqb cell_leb (fun r => cell_key (Client r)) dff.

(** [frame.iloc[indexer]]. *)
Definition take {A : Type} (d : A) (frame : list A) (indexer : list nat)
  : list A :=
  map (fun i => nth i frame d) indexer.

(** [.sort_values("Value", ascending=False)]. *)
Definition sort_values_desc `{Runtime} (frame : list (cell * Q))
  : list (cell * Q) :=
  take (NaN, 0) frame (argsort_desc (map snd frame)).

(** [frame.insert(0, "Rank", np.arange(1, len(frame) + 1))]. *)
Definition insert_rank {A : Type} (frame : list A) : list (nat * A) :=
  combine (seq 1 (length frame)) frame.

Definition top_clients `{Runtime} (dff : list LongRow) (top_n : nat)
  : list (nat * (cell * Q)) :=
  insert_rank (head top_n (sort_values_desc (client_rev dff))).

Definition cust `{Runtime} (dff : list LongRow) : list (nat * (cell * Q)) :=
  insert_rank (sort_values_desc (client_rev dff)).

(** [df_["Value"] > 0]: false on NaN. *)
Definition positive (r : LongRow) : bool :=
  match Value r with
  | Some q => Qltb 0 q
  | None => false
  end.

(** [Series.nunique()]: the number of distinct entries that are not null. *)
Definition nunique (col : list cell) : nat :=
  length (unique cell_eqb (filter notna col)).

Record ServiceUsage : Type := mkServiceUsage {
  su_service : cell;
  Usage : nat;
  Revenue : Q
}.

(** [a] does not sort after [b] under
    [sort_values(["Usage", "Revenue"], ascending=False)]. *)
Definition usage_revenue_geb (a b : ServiceUsage) : bool :=
  (Usage b <? Usage a)%nat
  || ((Usage a =? Usage b)%nat && Qle_bool (Revenue b) (Revenue a)).

(** The rows that [top_services_usage] aggregates. *)
Definition usage_population (df_ : list LongRow) : list LongRow :=
  let tmp := filter positive df_ in
  if is_empty tmp then df_ else tmp.

Definition service_usage `{Runtime} (tmp : list LongRow)
  : list ServiceUsage :=
  map (fun g => mkServiceUsage (fst g) (nunique (map Job (snd g)))
                  (Group_sum (map Value (snd g))))
      (groupby cell_eqb cell_leb (fun r => cell_key (Job_description r)) tmp).

(** The frame [g] plotted by [top_services_usage]; sorting on several keys
    is a stable sort. *)
Definition top_services_usage `{Runtime} (df_ : list LongRow) (n : nat)
  : list ServiceUsage :=
  let tmp := usage_population df_ in
  head n (sorted usage_revenue_geb (service_usage tmp)).

(** ** CSV export *)

Definition LF : ascii := ascii_of_nat 10.
Definition comma : ascii := ascii_of_nat 44.
Definition dquote : ascii := ascii_of_nat 34.

(** The line terminator of [to_csv]: [os.linesep], here of a POSIX system. *)
Definition lineterminator : string := String LF EmptyString.

Fixpoint occurs (c : ascii) (s : string) : bool :=
  match s with
  | EmptyString => false
  | String c' s' => Ascii.eqb c c' || occurs c s'
  end.

(** Minimal quoting: a field is quoted when it holds the delimiter, the
    quote character or a character of the line terminator. *)
Fixpoint needs_quoting (s : string) : bool :=
  match s with
  | EmptyString => false
  | String c s' =>
      Ascii.eqb c comma || Ascii.eqb c dquote || occurs c lineterminator
      || needs_quoting s'
  end.

Fixpoint double_quotes (s : string) : string :=
  match s with
  | EmptyString => EmptyString
  | String c s' =>
      if Ascii.eqb c dquote then String dquote (String dquote (double_quotes s'))
      else String c (double_quotes s')
  end.

Definition csv_field (s : string) : string :=
  if needs_quoting s
  then String dquote (double_quotes s ++ String dquote EmptyString)
  else s.

Definition csv_line (fields : list string) : string :=
  String.concat (String comma EmptyString) (map csv_field fields)
  ++ lineterminator.

Definition csv_header : list string :=
  ["Client"; "Job"; "Job description"; "Data type"; "Month"; "Value"]%string.

(** How [to_csv] prints an entry: a null as the empty text. *)
Definition cell_repr `{Runtime} (c : cell) : string :=
  match c with
  | NaN => EmptyString
  | Num q => float_repr q
  | Text s => s
  end.

Definition value_repr `{Runtime} (v : option Q) : string :=
  match v with
  | Some q => float_repr q
  | None => EmptyString
  end.

Definition csv_fields `{Runtime} (r : LongRow) : list string :=
  [cell_repr (Client r); cell_repr (Job r); cell_repr (Job_description r);
   cell_repr (Data_type r); date_repr (Month r); value_repr (Value r)].

(** [dff.to_csv(index=False)]; texts are sequences of UTF-8 bytes. *)
Definition to_csv `{Runtime} (dff : list LongRow) : string :=
  csv_line csv_header
  ++ String.concat EmptyString (map (fun r => csv_line (csv_fields r)) dff).

(** The byte order mark that the codec [utf-8-sig] writes first. *)
Definition BOM : string :=
  String (ascii_of_nat 239)
    (String (ascii_of_nat 187) (String (ascii_of_nat 191) EmptyString)).

Definition encode_utf8_sig (s : string) : string := BOM ++ s.

Definition csv `{Runtime} (dff : list LongRow) : string :=
  encode_utf8_sig (to_csv dff).

(** Number of line feeds of a text. *)
Fixpoint count_LF (s : string) : nat :=
  match s with
  | EmptyString => 0
  | String c s' => (if Ascii.eqb c LF then 1 else 0) + count_LF s'
  end.

(** ** The rest of the script *)

Definition ts_ltb (a b : Timestamp) : bool :=
  match ts_compare a b with Lt => true | _ => false end.

(** [min(l)]: the first least element; [None] stands for the [ValueError]
    that an empty list raises. *)
Definition py_min (l : list Timestamp) : option Timestamp :=
  match l with
  | [] => None
  | x :: l' => Some (fold_left (fun m y => if ts_ltb y m then y else m) l' x)
  end.

(** [max(l)]: the first greatest element. *)
Definition py_max (l : list Timestamp) : option Timestamp :=
  match l with
  | [] => None
  | x :: l' => Some (fold_left (fun m y => if ts_ltb m y then y else m) l' x)
  end.

(** [month_slider]: [moved] is the pair of dates that the slider returns once
    the user has set it; untouched, the slider returns its initial value
    [(min_d, max_d)].  The slider widget raises when its least and greatest
    values are the same; [None] stands for that error. *)
Definition month_slider (min_m max_m : Timestamp)
    (moved : option (Timestamp * Timestamp))
  : option (Timestamp * Timestamp) :=
  let min_d := first_of_month min_m in
  let max_d := first_of_month max_m in
  if ts_eqb min_d max_d then None
  else
    match moved with
    | None => Some (min_d, max_d)
    | Some (start_d, end_d) => Some (start_d, end_d)
    end.

(** The metric [n_clients]: the clients of which the summed value is
    positive. *)
Definition n_clients `{Runtime} (dff : list LongRow) : nat :=
  length (filter (fun g : cell * Q => Qltb 0 (snd g)) (client_rev dff)).

Definition n_services (dff : list LongRow) : nat :=
  nunique (map Job_description dff).

Definition n_jobs (dff : list LongRow) : nat :=
  nunique (map Job dff).

(** What the metric cards show. *)
Record Metrics : Type := mkMetrics {
  card_revenue : Q;
  card_clients : nat;
  card_services : nat;
  card_jobs : nat
}.

Definition metrics `{Runtime} (dff : list LongRow) : Metrics :=
  mkMetrics (revenue_total dff) (n_clients dff) (n_services dff) (n_jobs dff).

(** How a run of the script ends before the metric cards. *)
Inductive stop : Type :=
| SchemaStop (e : error)   (* [to_long] raises *)
| NoMonthStop              (* [min(months)] raises on an empty list *)
| SliderStop               (* the slider raises on a range of one month *)
| NoDataStop.              (* [dff.empty]: warning and [st.stop()] *)

(** The widgets as the script sets them up on a first run: the slider at
    the range [range] that [month_slider] returned, every option selected,
    top 10. *)
Definition initial_sidebar `{Runtime} (df_long : list LongRow)
    (range : Timestamp * Timestamp) : Sidebar :=
  mkSidebar (fst range) (snd range)
    (data_types df_long) (clients df_long) (services df_long) 10.

(** The script from the sheet to the metric cards, on a first run. *)
Definition first_run `{Runtime} (df_wide : DataFrame) : stop + Metrics :=
  match to_long df_wide with
  | inl e => inl (SchemaStop e)
  | inr (df_long, months) =>
      match py_min months, py_max months with
      | Some min_month, Some max_month =>
          match month_slider min_month max_month None with
          | None => inl SliderStop
          | Some range =>
              let dff := dff df_long (initial_sidebar df_long range) in
              if is_empty dff then inl NoDataStop else inr (metrics dff)
          end
      | _, _ => inl NoMonthStop
      end
  end.

(** The chart of the services on the Overview tab: drawn only when some row
    has a positive value, replaced by a notice otherwise. *)
Definition overview_services `{Runtime} (dff : list LongRow) (top_n : nat)
  : option (list ServiceUsage) :=
  if is_empty (filter positive dff) then None
  else Some (top_services_usage dff top_n).

(** One row of the table of the Services tab. *)
Record ServiceStats : Type := mkServiceStats {
  ss_service : cell;
  ss_Revenue : Q;
  ss_Usage : nat;
  ss_Jobs : nat;
  ss_Customers : nat
}.

Definition stats_geb (a b : ServiceStats) : bool :=
  (ss_Usage b <? ss_Usage a)%nat
  || ((ss_Usage a =? ss_Usage b)%nat
      && Qle_bool (ss_Revenue b) (ss_Revenue a)).

(** The table [service_stats] with its Rank column. *)
Definition service_stats `{Runtime} (dff : list LongRow)
  : list (nat * ServiceStats) :=
  let pos := filter positive dff in
  let pos := if is_empty pos then dff else pos in
  insert_rank
    (sorted stats_geb
       (map (fun g => mkServiceStats (fst g)
                        (Group_sum (map Value (snd g)))
                        (nunique (map Job (snd g)))
                        (nunique (map Job (snd g)))
                        (nunique (map Client (snd g))))
          (groupby cell_eqb cell_leb
             (fun r => cell_key (Job_description r)) pos))).

(** ** Sums of a float64 column *)

(** Binary64 numbers and their operations, rounded to nearest, ties to even,
    on the rationals that they denote. *)
Module Float64.

Definition prec : Z := 53.
Definition emax : Z := 1024.

Definition of_Z (z : Z) : spec_float := binary_normalize prec emax z 0 false.

(** The float nearest to a rational; exact on the rationals that are
    binary64 numbers. *)
Definition of_Q (q : Q) : spec_float :=
  SFdiv prec emax (of_Z (Qnum q)) (of_Z (Zpos (Qden q))).

(** The rational that a finite float denotes (0 for what is not finite). *)
Definition to_Q (f : spec_float) : Q :=
  match f with
  | S754_finite s m e =>
      let n := if s then Zneg m else Zpos m in
      Qred match e with
           | Z0 => n # 1
           | Zpos k => (n * 2 ^ Zpos k) # 1
           | Zneg k => n # (2 ^ k)
           end
  | _ => 0
  end.

Definition zero : spec_float := S754_zero false.
Definition fadd : spec_float -> spec_float -> spec_float := SFadd prec emax.
Definition fsub : spec_float -> spec_float -> spec_float := SFsub prec emax.

(** The unrolled loop of NumPy's pairwise summation: eight running sums,
    fed eight entries at a time while eight are left. *)
Fixpoint add_blocks (fuel : nat) (r a : list spec_float)
  : list spec_float * list spec_float :=
  match fuel with
  | O => (r, a)
  | S fuel' =>
      if (8 <=? length a)%nat
      then add_blocks fuel'
             (map (fun p => fadd (fst p) (snd p)) (combine r (firstn 8 a)))
             (skipn 8 a)
      else (r, a)
  end.

(** NumPy's pairwise summation, the loop of [ndarray.sum]: fewer than 8
    entries are added from left to right, up to 128 entries in eight running
    sums, more by halves. *)
Fixpoint pairwise_sum (fuel : nat) (a : list spec_float) : spec_float :=
  match fuel with
  | O => fold_left fadd a zero
  | S fuel' =>
      let n := length a in
      if (n <? 8)%nat then fold_left fadd a zero
      else if (n <=? 128)%nat then
        let '(r, rest) := add_blocks n (firstn 8 a) (skipn 8 a) in
        let r_ := fun j => nth j r zero in
        let res :=
          fadd (fadd (fadd (r_ 0%nat) (r_ 1%nat)) (fadd (r_ 2%nat) (r_ 3%nat)))
               (fadd (fadd (r_ 4%nat) (r_ 5%nat)) (fadd (r_ 6%nat) (r_ 7%nat)))
        in
        fold_left fadd rest res
      else
        let n2 := (n / 2)%nat in
        let n2 := (n2 - n2 mod 8)%nat in
        fadd (pairwise_sum fuel' (firstn n2 a)) (pairwise_sum fuel' (skipn n2 a))
  end.

(** [Series.sum()] of a float64 column. *)
Definition series_sum (vs : list Q) : Q :=
  to_Q (pairwise_sum (length vs) (map of_Q vs)).

Definition is_nan (f : spec_float) : bool :=
  match f with S754_nan => true | _ => false end.

(** The loop of the group sums of pandas: a compensated (Kahan) summation,
    of which the running sum is the result; a compensation that is not a
    number is reset. *)
Definition kahan_step (state : spec_float * spec_float) (val : spec_float)
  : spec_float * spec_float :=
  let '(sumx, compensation) := state in
  let y := fsub val compensation in
  let t := fadd sumx y in
  let c := fsub (fsub t sumx) y in
  (t, if is_nan c then zero else c).

Definition group_sum (vs : list Q) : Q :=
  to_Q (fst (fold_left kahan_step (map of_Q vs) (zero, zero))).

End Float64.

(** ** Sums of an int64 column *)

(** When every value cell of the sheet is a whole number, the column of the
    values is an int64 column, [fillna(0.0)] leaves it so, and its sums are
    sums of machine integers. *)
Module Int64.

(** Two's complement on 64 bits. *)
Definition wrap (z : Z) : Z := ((z + 2 ^ 63) mod 2 ^ 64 - 2 ^ 63)%Z.

Definition add (a b : Z) : Z := wrap (a + b).

(** The sum of a column of whole numbers. *)
Definition sum (vs : list Q) : Z :=
  fold_left (fun a v => add a (Qnum v)) vs 0%Z.

(** [float(col.sum())]. *)
Definition series_sum (vs : list Q) : Q :=
  Float64.to_Q (Float64.of_Z (sum vs)).

Definition group_sum (vs : list Q) : Q := inject_Z (sum vs).

End Int64.

(** ** A reference runtime *)

Module Reference.

Definition digit_of (c : ascii) : option Z :=
  let n := Z.of_nat (nat_of_ascii c) in
  if (48 <=? n)%Z && (n <=? 57)%Z then Some (n - 48)%Z else None.

Fixpoint parse_digits (acc : Z) (s : string) : option Z :=
  match s with
  | EmptyString => Some acc
  | String c s' =>
      match digit_of c with
      | Some d => parse_digits (10 * acc + d)%Z s'
      | None => None
      end
  end.

(** Texts of decimal digits, with an optional minus sign. *)
Definition parse_float (s : string) : option Q :=
  match s with
  | EmptyString => None
  | String c s' =>
      if Ascii.eqb c (ascii_of_nat 45) then
        match s' with
        | EmptyString => None
        | _ => option_map (fun z => inject_Z (- z)) (parse_digits 0 s')
        end
      else option_map inject_Z (parse_digits 0 s)
  end.

Fixpoint digits (fuel : nat) (n : Z) (acc : string) : string :=
  match fuel with
  | O => acc
  | S fuel' =>
      let acc' := String (ascii_of_nat (Z.to_nat (48 + n mod 10))) acc in
      if (n <? 10)%Z then acc' else digits fuel' (n / 10)%Z acc'
  end.

Definition Z_repr (z : Z) : string :=
  if (z <? 0)%Z
  then String (ascii_of_nat 45) (digits (Z.to_nat (Z.log2 (- z)) + 1) (- z) "")
  else digits (Z.to_nat (Z.log2 z) + 1) z "".

(** Integral floats print as [100.0]; the others as a fraction. *)
Definition float_repr (q : Q) : string :=
  let q' := Qred q in
  if (Qden q' =? 1)%positive then Z_repr (Qnum q') ++ ".0"
  else Z_repr (Qnum q') ++ "/" ++ Z_repr (Zpos (Qden q')).

Definition pad2 (z : Z) : string :=
  if (z <? 10)%Z then "0" ++ Z_repr z else Z_repr z.

(** [2024-01-01]. *)
Definition date_repr (t : Timestamp) : string :=
  Z_repr (ts_year t) ++ "-" ++ pad2 (ts_month t) ++ "-" ++ pad2 (ts_day t).

(** Sorting the positions by insertion; [before x y] tells that [x] may
    stand in front of [y]. *)
Definition argsort_by (before : Q -> Q -> bool) (vs : list Q) : list nat :=
  map fst
    (sorted (fun a b : nat * Q => before (snd a) (snd b))
       (combine (seq 0 (length vs)) vs)).

(** Equal values keep their order: a stable descending sort. *)
Definition argsort_stable : list Q -> list nat :=
  argsort_by (fun x y => Qle_bool y x).

End Reference.

(** ** Statements and examples *)

(** The long row that [to_long] builds from a wide row and a date header. *)
Definition long_row `{Runtime} (df : DataFrame) (row : list cell)
    (t : Timestamp) : LongRow :=
  let get := at_col (columns df) row in
  mkLongRow (get (LText "Client")) (get (LText "Job"))
    (get (LText "Job description")) (get (LText "Data type"))
    (first_of_month t)
    (fillna 0 (to_numeric (get (LDate t)))).

(** The order in which a row-major unpivot would emit the long rows: every
    date column of the first wide row, then every date column of the second,
    and so on. *)
Definition row_major `{Runtime} (df : DataFrame) : list LongRow :=
  flat_map (fun row => map (long_row df row) (date_columns (columns df)))
    (data df).

(** The sheet of the worked example, with a second client whose cells are a
    blank and a text. *)
Module Scenario.
Definition jan : Timestamp := mkTimestamp 2024 1 1 0.
Definition feb : Timestamp := mkTimestamp 2024 2 1 0.

(** A header dated at the end of February. *)
Definition feb_29 : Timestamp := mkTimestamp 2024 2 29 0.

Definition wide : DataFrame :=
  mkDataFrame
    [LText "Client"; LText "Job"; LText "Job description";
     LText "Data type"; LDate jan; LDate feb_29]
    [[Text "A"; Text "J1"; Text "Svc1"; Text "T1"; Num 100; Num 50];
     [Text "B"; Text "J2"; Text "Svc2"; Text "T1"; NaN; Text "n/a"]].

Definition row (client : string) (job : string) (service : string)
    (month : Timestamp) (value : Q) : LongRow :=
  mkLongRow (Text client) (Text job) (Text service) (Text "T1") month
    (Some value).

(** Its long table, as [to_long] returns it. *)
Definition long : list LongRow :=
  [row "A" "J1" "Svc1" jan 100; row "B" "J2" "Svc2" jan 0;
   row "A" "J1" "Svc1" feb 50; row "B" "J2" "Svc2" feb 0].

Definition months : list Timestamp := [jan; feb].

(** The sheet without the column of the Job descriptions. *)
Definition no_description : DataFrame :=
  mkDataFrame
    [LText "Client"; LText "Job"; LText "Data type"; LDate jan; LDate feb]
    [[Text "A"; Text "J1"; Text "T1"; Num 100; Num 50]].

(** A long table of which every value is 0. *)
Definition all_zero : list LongRow :=
  [row "A" "J1" "Svc1" jan 0; row "B" "J2" "Svc2" jan 0;
   row "B" "J3" "Svc2" feb 0].
End Scenario.

(** Two long rows, of which the first has a blank client. *)
Module Blanks.
Import Scenario.

Definition anonymous : LongRow :=
  mkLongRow NaN (Text "J1") (Text "Svc1") (Text "T1") jan (Some 100).

Definition named : LongRow := row "B" "J2" "Svc2" jan 40.

(** Every multiselect cleared. *)
Definition cleared : Sidebar := mkSidebar jan feb [] [] [] 10.
End Blanks.

(** A long table as it comes from a sheet that [load_excel] has read:
    [pd.read_excel] reads a cell that holds the text [nan], one of its
    default markers of a missing value, as a blank, so that no Client, Data
    type or Job description is that text. *)
Definition loaded (df_long : list LongRow) : Prop :=
  forall r, In r df_long ->
    Client r <> Text "nan" /\ Data_type r <> Text "nan"
    /\ Job_description r <> Text "nan".

(** A runtime of which the single-key sort keeps rows of equal value in
    their order. *)
Definition stable_sort (RT : Runtime) : Prop :=
  forall (vs : list Q) (p q : nat),
    (p < q < length vs)%nat ->
    (nth (nth p (argsort_desc vs) O) vs 0
     == nth (nth q (argsort_desc vs) O) vs 0)%Q ->
    (nth p (argsort_desc vs) O < nth q (argsort_desc vs) O)%nat.

(** Three clients, two of them with the same revenue. *)
Module Ties.
Import Scenario.

Definition rows : list LongRow :=
  [row "A" "J1" "Svc1" jan 5; row "B" "J2" "Svc1" jan 5;
   row "C" "J3" "Svc2" jan 9].
End Ties.

(** Descending order on (Usage, Revenue). *)
Definition usage_then_revenue (a b : ServiceUsage) : Prop :=
  (Usage b < Usage a)%nat
  \/ (Usage a = Usage b /\ (Revenue b <= Revenue a)%Q).

(** Line breaks inside the printed fields of a row. *)
Definition breaks_in `{Runtime} (r : LongRow) : nat :=
  list_sum (map count_LF (csv_fields r)).

Definition one_line `{Runtime} (r : LongRow) : bool :=
  forallb (fun f => Nat.eqb (count_LF f) 0) (csv_fields r).

(** A service of which the description is written on two lines. *)
Module TwoLines.
Definition description : string :=
  ("Audit" ++ String LF "and filing")%string.

Definition rows : list LongRow :=
  [mkLongRow (Text "A") (Text "J1") (Text description) (Text "T1")
     Scenario.jan (Some 100)].
End TwoLines.

(** The sum of the values that are not NaN, in exact arithmetic. *)
Fixpoint exact_sum (rows : list LongRow) : Q :=
  match rows with
  | [] => 0
  | r :: rows' =>
      match Value r with
      | Some q => q + exact_sum rows'
      | None => exact_sum rows'
      end
  end.

(** The additions of [Series.sum()] over the values of [rows] lose
    nothing: no rounding, no overflow. *)
Definition series_exact `{Runtime} (rows : list LongRow) : Prop :=
  (Series_sum (map Value rows) == exact_sum rows)%Q.

(** The same for the additions of a group sum. *)
Definition group_exact `{Runtime} (rows : list LongRow) : Prop :=
  (Group_sum (map Value rows) == exact_sum rows)%Q.

(** The rows that [groupby] collects for one month, one client and one
    service. *)
Definition rows_of_month (m : Timestamp) (rows : list LongRow)
  : list LongRow :=
  filter (in_group ts_eqb (fun r => Some (Month r)) m) rows.

Definition rows_of_client (c : cell) (rows : list LongRow) : list LongRow :=
  filter (in_group cell_eqb (fun r => cell_key (Client r)) c) rows.

Definition rows_of_service (s : cell) (rows : list LongRow) : list LongRow :=
  filter (in_group cell_eqb (fun r => cell_key (Job_description r)) s) rows.

(** The sum of every month, of every client and of every service of a table
    is exact. *)
Definition month_sums_exact `{Runtime} (rows : list LongRow) : Prop :=
  forall m, In m (map Month rows) -> group_exact (rows_of_month m rows).

Definition client_sums_exact `{Runtime} (rows : list LongRow) : Prop :=
  forall c, In c (map Client rows) -> c <> NaN ->
    group_exact (rows_of_client c rows).

Definition service_sums_exact `{Runtime} (rows : list LongRow) : Prop :=
  forall s, In s (map Job_description rows) -> s <> NaN ->
    group_exact (rows_of_service s rows).

(** A sheet with two clients: the first has a large revenue in January
    that a refund in February takes back. *)
Module Rounding.
Import Scenario.

Definition large : Q := inject_Z (10 ^ 16).

Definition wide : DataFrame :=
  mkDataFrame
    [LText "Client"; LText "Job"; LText "Job description";
     LText "Data type"; LDate jan; LDate feb]
    [[Text "A"; Text "J1"; Text "Svc1"; Text "T1"; Num large; Num (- large)];
     [Text "B"; Text "J2"; Text "Svc2"; Text "T1"; Num (3 # 2); Num (3 # 2)]].

Definition long : list LongRow :=
  [mkLongRow (Text "A") (Text "J1") (Text "Svc1") (Text "T1") jan
     (Some large);
   mkLongRow (Text "B") (Text "J2") (Text "Svc2") (Text "T1") jan
     (Some (3 # 2));
   mkLongRow (Text "A") (Text "J1") (Text "Svc1") (Text "T1") feb
     (Some (- large));
   mkLongRow (Text "B") (Text "J2") (Text "Svc2") (Text "T1") feb
     (Some (3 # 2))].
End Rounding.

(** One client with a value of [2 ^ 62] in each of two months. *)
Module Overflow.
Import Scenario.

Definition rows : list LongRow :=
  [row "A" "J1" "Svc1" jan (inject_Z (2 ^ 62));
   row "A" "J1" "Svc1" feb (inject_Z (2 ^ 62))].
End Overflow.

(** A sheet with two clients: the first has a large revenue in January,
    a small one in February and a refund of the large one in March. *)
Module Refund.
Import Scenario.

Definition mar : Timestamp := mkTimestamp 2024 3 1 0.

Definition wide : DataFrame :=
  mkDataFrame
    [LText "Client"; LText "Job"; LText "Job description";
     LText "Data type"; LDate jan; LDate feb; LDate mar]
    [[Text "A"; Text "J1"; Text "Svc1"; Text "T1";
      Num Rounding.large; Num (3 # 2); Num (- Rounding.large)];
     [Text "B"; Text "J2"; Text "Svc2"; Text "T1";
      Num (7 # 4); Num 0; Num 0]].

Definition long : list LongRow :=
  [mkLongRow (Text "A") (Text "J1") (Text "Svc1") (Text "T1") jan
     (Some Rounding.large);
   mkLongRow (Text "B") (Text "J2") (Text "Svc2") (Text "T1") jan
     (Some (7 # 4));
   mkLongRow (Text "A") (Text "J1") (Text "Svc1") (Text "T1") feb
     (Some (3 # 2));
   mkLongRow (Text "B") (Text "J2") (Text "Svc2") (Text "T1") feb (Some 0);
   mkLongRow (Text "A") (Text "J1") (Text "Svc1") (Text "T1") mar
     (Some (- Rounding.large));
   mkLongRow (Text "B") (Text "J2") (Text "Svc2") (Text "T1") mar (Some 0)].
End Refund.

(** The sheet of the worked example, header and no row. *)
Definition empty_sheet : DataFrame :=
  mkDataFrame (columns Scenario.wide) [].

(** A sheet of which the only date header is January. *)
Definition january_sheet : DataFrame :=
  mkDataFrame
    [LText "Client"; LText "Job"; LText "Job description";
     LText "Data type"; LDate Scenario.jan]
    [[Text "A"; Text "J1"; Text "Svc1"; Text "T1"; Num 100]].

(** The sheet of the worked example with one more column, named as [melt]
    names the column of the values. *)
Definition value_sheet : DataFrame :=
  mkDataFrame (columns Scenario.wide ++ [LText "Value"])
    (map (fun row => row ++ [Num 1]) (data Scenario.wide)).

(** A sheet of which the only row has no client. *)
Definition anonymous_sheet : DataFrame :=
  mkDataFrame (columns Scenario.wide)
    [[NaN; Text "J1"; Text "Svc1"; Text "T1"; Num 100; Num 50]].

(** The columns of the Services table that the chart of the services
    plots. *)
Definition to_usage (s : ServiceStats) : ServiceUsage :=
  mkServiceUsage (ss_service s) (ss_Usage s) (ss_Revenue s).

(** * Properties *)

(** ** Facts on the list primitives *)

Section SortedFacts.
Context {A : Type} (leb : A -> A -> bool).

Lemma insert_sorted_perm (x : A) (l : list A) :
  Permutation (insert_sorted leb x l) (x :: l).
Proof.
  induction l as [|y l IH]; simpl.
  - apply Permutation_refl.
  - destruct (leb x y).
    + apply Permutation_refl.
    + apply perm_trans with (y :: x :: l).
      * now apply perm_skip.
      * apply perm_swap.
Qed.

Lemma sorted_perm (l : list A) : Permutation (sorted leb l) l.
Proof.
  induction l as [|x l IH]; simpl.
  - apply perm_nil.
  - eapply perm_trans; [apply insert_sorted_perm|].
    now apply perm_skip.
Qed.

Lemma sorted_In (x : A) (l : list A) : In x (sorted leb l) <-> In x l.
Proof.
  split; intro Hin.
  - eapply Permutation_in; [apply sorted_perm | exact Hin].
  - eapply Permutation_in; [apply Permutation_sym, sorted_perm | exact Hin].
Qed.

Lemma sorted_length (l : list A) : length (sorted leb l) = length l.
Proof. apply Permutation_length, sorted_perm. Qed.

Variable R : A -> A -> Prop.
Hypothesis R_trans : forall x y z, R x y -> R y z -> R x z.
Hypothesis leb_true : forall x y, leb x y = true -> R x y.
Hypothesis leb_false : forall x y, leb x y = false -> R y x.

Lemma insert_sorted_Forall (a x : A) (l : list A) :
  R a x -> Forall (R a) l -> Forall (R a) (insert_sorted leb x l).
Proof.
  intros Hax Hl.
  eapply Permutation_Forall.
  - apply Permutation_sym, insert_sorted_perm.
  - now constructor.
Qed.

Lemma insert_sorted_sorted (x : A) (l : list A) :
  StronglySorted R l -> StronglySorted R (insert_sorted leb x l).
Proof.
  induction 1 as [|y l Hs IH Hy]; simpl.
  - repeat constructor.
  - destruct (leb x y) eqn:E.
    + constructor; [now constructor|].
      constructor; [now apply leb_true|].
      eapply Forall_impl; [|exact Hy].
      intros z Hyz. eapply R_trans; [apply leb_true|]; eassumption.
    + constructor; [exact IH|].
      apply insert_sorted_Forall; [now apply leb_false | exact Hy].
Qed.

Lemma sorted_sorted (l : list A) : StronglySorted R (sorted leb l).
Proof.
  induction l as [|x l IH]; simpl.
  - constructor.
  - now apply insert_sorted_sorted.
Qed.
End SortedFacts.

Section UniqueFacts.
Context {A : Type} (eqb : A -> A -> bool).
Hypothesis eqb_eq : forall x y, eqb x y = true <-> x = y.

Lemma isin_In (x : A) (l : list A) : isin eqb x l = true <-> In x l.
Proof.
  unfold isin. rewrite existsb_exists. split.
  - intros [y [Hy E]]. apply eqb_eq in E. now subst.
  - intro Hx. exists x. split; [exact Hx | now apply eqb_eq].
Qed.

Lemma isin_false (x : A) (l : list A) : isin eqb x l = false <-> ~ In x l.
Proof.
  rewrite <- isin_In. destruct (isin eqb x l); split; congruence.
Qed.

Lemma unique_acc_In (x : A) (l seen : list A) :
  In x (unique_acc eqb seen l) <-> In x l /\ ~ In x seen.
Proof.
  revert seen. induction l as [|y l IH]; intros seen; simpl.
  - tauto.
  - destruct (isin eqb y seen) eqn:E.
    + apply isin_In in E. rewrite IH. split.
      * intros [H1 H2]. tauto.
      * intros [[->|H1] H2]; tauto.
    + apply isin_false in E. simpl. rewrite IH. simpl. split.
      * intros [->|[H1 H2]]; tauto.
      * intros [[->|H1] H2]; [tauto|].
        destruct (eqb y x) eqn:Eyx.
        -- apply eqb_eq in Eyx. tauto.
        -- right. split; [exact H1|].
           intros [->|H3]; [|tauto].
           assert (eqb x x = true) by now apply eqb_eq.
           congruence.
Qed.

Lemma unique_In (x : A) (l : list A) : In x (unique eqb l) <-> In x l.
Proof. unfold unique. rewrite unique_acc_In. simpl. tauto. Qed.

Lemma unique_acc_NoDup (l seen : list A) : NoDup (unique_acc eqb seen l).
Proof.
  revert seen. induction l as [|y l IH]; intros seen; simpl.
  - constructor.
  - destruct (isin eqb y seen); [apply IH|].
    constructor; [|apply IH].
    rewrite unique_acc_In. simpl. tauto.
Qed.

Lemma unique_NoDup (l : list A) : NoDup (unique eqb l).
Proof. apply unique_acc_NoDup. Qed.
End UniqueFacts.

Lemma ts_eqb_eq (a b : Timestamp) : ts_eqb a b = true <-> a = b.
Proof.
  unfold ts_eqb, ts_compare. destruct a as [y m d t], b as [y' m' d' t']. simpl.
  split.
  - destruct (Z.compare_spec y y'); try discriminate.
    destruct (Z.compare_spec m m'); try discriminate.
    destruct (Z.compare_spec d d'); try discriminate.
    destruct (Z.compare_spec t t'); try discriminate.
    intros _. congruence.
  - intros E. injection E as -> -> -> ->.
    now rewrite !Z.compare_refl.
Qed.

Lemma string_eqb_eq (s s' : string) : String.eqb s s' = true <-> s = s'.
Proof. apply String.eqb_eq. Qed.

Lemma label_eqb_eq (a b : label) : label_eqb a b = true <-> a = b.
Proof.
  destruct a as [s|t], b as [s'|t']; simpl.
  - rewrite String.eqb_eq. split; congruence.
  - split; discriminate.
  - split; discriminate.
  - rewrite ts_eqb_eq. split; congruence.
Qed.

(** ** The reference runtime meets the interface *)

Module ReferenceFacts.
Import Reference.

Lemma in_combine_seq (vs : list Q) (s i : nat) (v : Q) :
  In (i, v) (combine (seq s (length vs)) vs) ->
  (s <= i)%nat /\ nth (i - s) vs 0%Q = v.
Proof.
  revert s. induction vs as [|x vs IH]; intros s; simpl.
  - tauto.
  - intros [E|Hin].
    + injection E as <- <-. split; [lia|]. now rewrite Nat.sub_diag.
    + apply IH in Hin. destruct Hin as [Hle Hn]. split; [lia|].
      replace (i - s)%nat with (S (i - S s)) by lia. exact Hn.
Qed.

Lemma map_fst_combine_seq (vs : list Q) (s : nat) :
  map fst (combine (seq s (length vs)) vs) = seq s (length vs).
Proof.
  revert s. induction vs as [|x vs IH]; intros s; simpl.
  - reflexivity.
  - now rewrite IH.
Qed.

Section ArgsortBy.
Variable before : Q -> Q -> bool.
Hypothesis before_true : forall x y, before x y = true -> (y <= x)%Q.
Hypothesis before_false : forall x y, before x y = false -> (x <= y)%Q.

Lemma argsort_by_perm (vs : list Q) :
  Permutation (argsort_by before vs) (seq 0 (length vs)).
Proof.
  unfold argsort_by.
  eapply perm_trans; [apply Permutation_map, sorted_perm|].
  rewrite map_fst_combine_seq. apply Permutation_refl.
Qed.

Lemma argsort_by_sorted (vs : list Q) :
  StronglySorted (fun i j => (nth j vs 0 <= nth i vs 0)%Q)
    (argsort_by before vs).
Proof.
  unfold argsort_by.
  set (leb := fun a b : nat * Q => before (snd a) (snd b)).
  set (pairs := combine (seq 0 (length vs)) vs).
  assert (Hs : StronglySorted (fun a b : nat * Q => (snd b <= snd a)%Q)
                 (sorted leb pairs)).
  { apply sorted_sorted.
    - intros x y z Hxy Hyz. eapply Qle_trans; eassumption.
    - intros x y. apply before_true.
    - intros x y. apply before_false. }
  assert (Hg : Forall (fun a : nat * Q => nth (fst a) vs 0%Q = snd a)
                 (sorted leb pairs)).
  { apply Forall_forall. intros [i v] Hin. apply sorted_In in Hin.
    apply in_combine_seq in Hin. simpl. destruct Hin as [_ Hn].
    now rewrite Nat.sub_0_r in Hn. }
  induction Hs as [|a l Hs IH Ha]; simpl.
  - constructor.
  - inversion Hg as [|? ? Hga Hgl]; subst.
    constructor; [now apply IH|].
    apply Forall_forall. intros j Hj. apply in_map_iff in Hj.
    destruct Hj as [b [<- Hb]].
    rewrite Hga.
    rewrite Forall_forall in Hgl. rewrite (Hgl b Hb).
    rewrite Forall_forall in Ha. now apply Ha.
Qed.
End ArgsortBy.

Lemma Qltb_true (x y : Q) : Qltb y x = true -> (y <= x)%Q.
Proof.
  unfold Qltb. intro E. apply negb_true_iff in E.
  destruct (Qlt_le_dec y x) as [Hlt|Hle].
  - now apply Qlt_le_weak.
  - apply Qle_bool_iff in Hle. congruence.
Qed.

Lemma Qltb_false (x y : Q) : Qltb y x = false -> (x <= y)%Q.
Proof.
  unfold Qltb. intro E. apply negb_false_iff in E.
  now apply Qle_bool_iff.
Qed.

Lemma Qle_bool_false (x y : Q) : Qle_bool y x = false -> (x <= y)%Q.
Proof.
  intro E. destruct (Qlt_le_dec y x) as [Hlt|Hle].
  - apply Qlt_le_weak, Qle_bool_iff in Hlt. congruence.
  - exact Hle.
Qed.

Lemma integral_not_nan (s : string) : (s ++ ".0")%string <> "nan"%string.
Proof.
  destruct s as [|a [|b [|c s]]]; simpl; try discriminate.
  intro E. injection E as _ _ E. destruct s; discriminate.
Qed.

Lemma fraction_not_nan (s t : string) :
  (s ++ "/" ++ t)%string <> "nan"%string.
Proof.
  destruct s as [|a [|b [|c s]]]; simpl; try discriminate.
  intro E. injection E as _ _ E. destruct s; discriminate.
Qed.

Lemma float_repr_number (q : Q) : float_repr q <> "nan"%string.
Proof.
  unfold float_repr. destruct (Qden (Qred q) =? 1)%positive.
  - apply integral_not_nan.
  - apply fraction_not_nan.
Qed.
End ReferenceFacts.

(** The reference runtime: float64 sums and a stable sort. *)
#[export] Instance reference_runtime : Runtime :=
  mkRuntime Reference.parse_float Reference.float_repr Reference.date_repr
    Float64.series_sum Float64.group_sum
    Reference.argsort_stable
    (ReferenceFacts.argsort_by_perm _)
    (ReferenceFacts.argsort_by_sorted _
       (fun x y => proj1 (Qle_bool_iff y x))
       ReferenceFacts.Qle_bool_false)
    ReferenceFacts.float_repr_number.

(** The same runtime with the sums of an int64 column. *)
Definition int64_runtime : Runtime :=
  mkRuntime Reference.parse_float Reference.float_repr Reference.date_repr
    Int64.series_sum Int64.group_sum
    Reference.argsort_stable
    (ReferenceFacts.argsort_by_perm _)
    (ReferenceFacts.argsort_by_sorted _
       (fun x y => proj1 (Qle_bool_iff y x))
       ReferenceFacts.Qle_bool_false)
    ReferenceFacts.float_repr_number.

(** ** The reshape *)

Lemma map_over_flat_map {A B C : Type} (g : B -> C) (f : A -> list B)
    (l : list A) :
  map g (flat_map f l) = flat_map (fun x => map g (f x)) l.
Proof.
  induction l as [|x l IH]; simpl.
  - reflexivity.
  - now rewrite map_app, IH.
Qed.

Section Reshape.
Context `{RT : Runtime}.

Lemma melt_long_rows (df : DataFrame) (cols : list Timestamp)
    (melted : list MeltRow) :
  melt df cols = Some melted ->
  isin label_eqb (LText "Value") (columns df) = false
  /\ map long_of_melt melted
     = flat_map (fun t => map (fun row => long_row df row t) (data df)) cols.
Proof.
  unfold melt. destruct (isin label_eqb (LText "Value") (columns df));
    [discriminate|].
  intro E. injection E as <-. split; [reflexivity|].
  rewrite map_over_flat_map.
  apply flat_map_ext. intro t. now rewrite map_map.
Qed.

Lemma to_long_inr (df : DataFrame) (long : list LongRow)
    (months : list Timestamp) :
  to_long df = inr (long, months) ->
  filter (fun c => negb (isin label_eqb c (columns df))) ID_COLS = []
  /\ date_columns (columns df) <> []
  /\ long = flat_map (fun t => map (fun row => long_row df row t) (data df))
              (date_columns (columns df))
  /\ months = sorted ts_leb (unique ts_eqb (map Month long)).
Proof.
  unfold to_long.
  destruct (filter _ ID_COLS) as [|c0 missing] eqn:Emiss;
    cbn [negb is_empty]; [|discriminate].
  unfold detect_month_cols.
  destruct (is_empty (sorted ts_leb (date_columns (columns df))))
    eqn:Eempty; [discriminate|].
  destruct (melt df (date_columns (columns df))) as [melted|] eqn:Emelt;
    [|discriminate].
  apply melt_long_rows in Emelt. destruct Emelt as [_ Emelt].
  intro E. injection E as <- <-. rewrite Emelt.
  repeat split.
  intro Hnil. rewrite Hnil in Eempty. discriminate.
Qed.

Lemma to_long_no_Value_column (df : DataFrame) (long : list LongRow)
    (months : list Timestamp) :
  to_long df = inr (long, months) ->
  isin label_eqb (LText "Value") (columns df) = false.
Proof.
  unfold to_long.
  destruct (negb _); [discriminate|].
  destruct (is_empty _); [discriminate|].
  destruct (melt df (date_columns (columns df))) as [melted|] eqn:Emelt;
    [|discriminate].
  intros _. now apply melt_long_rows in Emelt.
Qed.

Lemma flat_map_blocks {A B C : Type} (f : A -> B -> C) (rows : list B)
    (cols : list A) (da : A) (db : B) (i j : nat) :
  (i < length rows)%nat -> (j < length cols)%nat ->
  nth_error (flat_map (fun t => map (f t) rows) cols) (j * length rows + i)
  = Some (f (nth j cols da) (nth i rows db)).
Proof.
  intro Hi. revert j. induction cols as [|t cols IH]; intros j Hj; simpl in *.
  - lia.
  - destruct j as [|j]; simpl.
    + rewrite nth_error_app1 by (rewrite length_map; exact Hi).
      rewrite nth_error_map.
      now rewrite (nth_error_nth' rows db Hi).
    + rewrite nth_error_app2 by (rewrite length_map; lia).
      rewrite length_map.
      replace (length rows + j * length rows + i - length rows)%nat
        with (j * length rows + i)%nat by lia.
      apply IH. lia.
Qed.

Lemma flat_map_blocks_length {A B C : Type} (f : A -> B -> C)
    (rows : list B) (cols : list A) :
  length (flat_map (fun t => map (f t) rows) cols)
  = (length rows * length cols)%nat.
Proof.
  induction cols as [|t cols IH]; simpl.
  - lia.
  - rewrite length_app, length_map, IH. lia.
Qed.

(** C1: a successful reshape of a sheet with R rows and M distinct date
    columns yields exactly R×M long rows; the row built from wide row [i]
    and date column [j] carries the four identifier cells of that wide row,
    the first of the month of the column's date as Month and the coerced
    cell as Value. *)
Theorem to_long_shape (df : DataFrame) (long : list LongRow)
    (months : list Timestamp) :
  NoDup (date_columns (columns df)) ->
  to_long df = inr (long, months) ->
  let R := length (data df) in
  let cols := date_columns (columns df) in
  length long = (R * length cols)%nat
  /\ forall i j, (i < R)%nat -> (j < length cols)%nat ->
       let row := nth i (data df) [] in
       let t := nth j cols (mkTimestamp 0 0 0 0) in
       exists r,
         nth_error long (j * R + i) = Some r
         /\ Client r = at_col (columns df) row (LText "Client")
         /\ Job r = at_col (columns df) row (LText "Job")
         /\ Job_description r
            = at_col (columns df) row (LText "Job description")
         /\ Data_type r = at_col (columns df) row (LText "Data type")
         /\ Month r = first_of_month t
         /\ Value r
            = fillna 0 (to_numeric (at_col (columns df) row (LDate t))).
Proof.
  intros _ Hok. apply to_long_inr in Hok.
  destruct Hok as (_ & _ & -> & _). simpl. split.
  - apply flat_map_blocks_length.
  - intros i j Hi Hj. eexists. split.
    + apply (flat_map_blocks (fun t row => long_row df row t) _ _
               (mkTimestamp 0 0 0 0) []); assumption.
    + repeat split.
Qed.

(** C2: under a date column, a blank cell and a text that denotes no number
    become Value 0, a number is kept as it is, whatever its sign, and no
    Value of the long table is null. *)
Theorem to_long_values (df : DataFrame) (long : list LongRow)
    (months : list Timestamp) :
  to_long df = inr (long, months) ->
  let R := length (data df) in
  let cols := date_columns (columns df) in
  (forall r, In r long -> exists q, Value r = Some q)
  /\ forall i j, (i < R)%nat -> (j < length cols)%nat ->
       exists r,
         nth_error long (j * R + i) = Some r
         /\ match at_col (columns df) (nth i (data df) [])
                    (LDate (nth j cols (mkTimestamp 0 0 0 0))) with
            | NaN => Value r = Some 0
            | Num q => Value r = Some q
            | Text s =>
                match parse_float s with
                | Some q => Value r = Some q
                | None => Value r = Some 0
                end
            end.
Proof.
  intros Hok. apply to_long_inr in Hok.
  destruct Hok as (_ & _ & -> & _). simpl. split.
  - intros r Hr. apply in_flat_map in Hr. destruct Hr as [t [_ Hr]].
    apply in_map_iff in Hr. destruct Hr as [row [<- _]].
    unfold long_row; simpl.
    destruct (to_numeric _) as [q|]; simpl; eauto.
  - intros i j Hi Hj. eexists. split.
    + apply (flat_map_blocks (fun t row => long_row df row t) _ _
               (mkTimestamp 0 0 0 0) []); assumption.
    + unfold long_row; cbn [Value].
      destruct (at_col _ _ (LDate _)) as [|q|s]; simpl; try reflexivity.
      destruct (parse_float s); reflexivity.
Qed.

(** C3, as amended: the reshape is a function of its input, and the long
    rows come one date column after the other, in header order, each column
    running over the wide rows in their order: the row of wide row [i] and
    date column [j] stands at position [j * R + i]. *)
Theorem to_long_order (df : DataFrame) (long : list LongRow)
    (months : list Timestamp) :
  to_long df = inr (long, months) ->
  let R := length (data df) in
  let cols := date_columns (columns df) in
  (forall long' months', to_long df = inr (long', months') ->
     long' = long /\ months' = months)
  /\ (forall i j, (i < R)%nat -> (j < length cols)%nat ->
        nth_error long (j * R + i)
        = Some (long_row df (nth i (data df) [])
                  (nth j cols (mkTimestamp 0 0 0 0))))
  /\ (forall i j i' j', (i < R)%nat -> (i' < R)%nat ->
        ((j * R + i < j' * R + i')%nat
         <-> (j < j')%nat \/ (j = j' /\ (i < i')%nat))).
Proof.
  intros Hok. simpl. split; [|split].
  - intros long' months' Hok'. rewrite Hok in Hok'.
    injection Hok' as <- <-. now split.
  - apply to_long_inr in Hok. destruct Hok as (_ & _ & -> & _).
    intros i j Hi Hj.
    apply (flat_map_blocks (fun t row => long_row df row t) _ _
               (mkTimestamp 0 0 0 0) []); assumption.
  - intros i j i' j' Hi Hi'. split.
    + intro Hlt. destruct (Nat.lt_trichotomy j j') as [Hj|[Hj|Hj]].
      * now left.
      * right. subst. split; [reflexivity | lia].
      * exfalso. nia.
    + intros [Hj|[-> Hii]]; nia.
Qed.

(** C4: when an identifier column is absent the reshape fails with an
    error that lists exactly the absent identifier columns, and when no
    header is a date it fails as well; in both cases the run ends there,
    without a long table and before the filter. *)
Theorem to_long_schema_errors (df : DataFrame) :
  ((exists c, In c ID_COLS /\ ~ In c (columns df)) ->
   exists missing,
     to_long df = inl (MissingColumns missing (columns df))
     /\ (forall c, In c missing <-> In c ID_COLS /\ ~ In c (columns df))
     /\ forall w, script df w = inl (MissingColumns missing (columns df)))
  /\ (date_columns (columns df) = [] ->
      exists e, to_long df = inl e /\ forall w, script df w = inl e).
Proof.
  split.
  - intros [c [Hid Hnot]].
    exists (filter (fun c => negb (isin label_eqb c (columns df))) ID_COLS).
    assert (Hmem : forall c',
               In c' (filter (fun c => negb (isin label_eqb c (columns df)))
                        ID_COLS)
               <-> In c' ID_COLS /\ ~ In c' (columns df)).
    { intro c'. rewrite filter_In, negb_true_iff.
      now rewrite (isin_false label_eqb label_eqb_eq). }
    assert (Hfail : to_long df
                    = inl (MissingColumns
                             (filter (fun c => negb (isin label_eqb c
                                                        (columns df)))
                                ID_COLS) (columns df))).
    { unfold to_long.
      destruct (filter _ ID_COLS) as [|c0 missing] eqn:Emiss.
      - exfalso. apply (proj2 (Hmem c)). now split.
      - reflexivity. }
    split; [exact Hfail|]. split; [exact Hmem|].
    intro w. unfold script. now rewrite Hfail.
  - intro Hnone.
    assert (Hfail : exists e, to_long df = inl e).
    { unfold to_long.
      destruct (filter _ ID_COLS) as [|c0 missing]; simpl.
      - unfold detect_month_cols. rewrite Hnone. simpl. eauto.
      - eauto. }
    destruct Hfail as [e He]. exists e. split; [exact He|].
    intro w. unfold script. now rewrite He.
Qed.
End Reshape.

Lemma to_long_shape_witness :
  to_long Scenario.wide = inr (Scenario.long, Scenario.months)
  /\ length Scenario.long = (2 * 2)%nat.
Proof.
  assert (Hok : to_long Scenario.wide = inr (Scenario.long, Scenario.months))
    by (vm_compute; reflexivity).
  split; [exact Hok|].
  refine (proj1 (to_long_shape Scenario.wide Scenario.long Scenario.months
                   _ Hok)).
  repeat constructor; simpl; intuition discriminate.
Defined.

Lemma to_long_values_witness :
  to_long Scenario.wide = inr (Scenario.long, Scenario.months)
  /\ forall r, In r Scenario.long -> exists q, Value r = Some q.
Proof.
  assert (Hok : to_long Scenario.wide = inr (Scenario.long, Scenario.months))
    by (vm_compute; reflexivity).
  split; [exact Hok|].
  exact (proj1 (to_long_values Scenario.wide Scenario.long Scenario.months
                  Hok)).
Defined.

Lemma to_long_order_witness :
  to_long Scenario.wide = inr (Scenario.long, Scenario.months)
  /\ nth_error Scenario.long (0 * 2 + 1)
     = Some (long_row Scenario.wide (nth 1 (data Scenario.wide) [])
               Scenario.jan).
Proof.
  assert (Hok : to_long Scenario.wide = inr (Scenario.long, Scenario.months))
    by (vm_compute; reflexivity).
  split; [exact Hok|].
  refine (proj1 (proj2 (to_long_order Scenario.wide Scenario.long
                          Scenario.months Hok)) 1%nat 0%nat _ _);
    simpl; lia.
Defined.

Lemma to_long_schema_errors_witness :
  exists missing,
    to_long Scenario.no_description
    = inl (MissingColumns missing (columns Scenario.no_description))
    /\ (forall c, In c missing
                  <-> In c ID_COLS /\ ~ In c (columns Scenario.no_description))
    /\ forall w, script Scenario.no_description w
                 = inl (MissingColumns missing
                          (columns Scenario.no_description)).
Proof.
  apply (proj1 (to_long_schema_errors Scenario.no_description)).
  exists (LText "Job description"). split.
  - simpl. tauto.
  - simpl. intuition discriminate.
Defined.

(** The error of the sheet without Job descriptions names that column. *)
Example no_description_error :
  to_long Scenario.no_description
  = inl (MissingColumns [LText "Job description"]
           (columns Scenario.no_description)).
Proof. reflexivity. Qed.

(** C3, as stated, fails: on the example sheet of two wide rows and two date
    columns the second long row belongs to the second wide row, while a
    row-major unpivot would put the second date column of the first wide row
    there. *)
Lemma to_long_not_row_major :
  to_long Scenario.wide = inr (Scenario.long, Scenario.months)
  /\ nth_error Scenario.long 1
     = Some (Scenario.row "B" "J2" "Svc2" Scenario.jan 0)
  /\ nth_error (row_major Scenario.wide) 1
     = Some (Scenario.row "A" "J1" "Svc1" Scenario.feb 50)
  /\ Scenario.long <> row_major Scenario.wide.
Proof.
  split; [vm_compute; reflexivity|].
  split; [reflexivity|].
  split; [vm_compute; reflexivity|].
  intro E. apply (f_equal (fun l => nth_error l 1)) in E.
  vm_compute in E. discriminate.
Qed.

(** ** The sidebar filter *)

Section Filter.
Context `{RT : Runtime}.

Lemma options_of_In (col : list cell) (s : string) :
  In s (options_of col)
  <-> exists c, In c col /\ notna c = true /\ astype_str c = s.
Proof.
  unfold options_of. rewrite sorted_In.
  rewrite (unique_In String.eqb string_eqb_eq). rewrite in_map_iff.
  split.
  - intros [c [Hs Hc]]. apply filter_In in Hc. exists c. tauto.
  - intros [c [Hc [Hn Hs]]]. exists c. rewrite filter_In. tauto.
Qed.

Lemma multiselect_all_incl (selected options : list string) :
  incl selected options -> incl (multiselect_all selected options) options.
Proof.
  unfold multiselect_all. destruct selected; simpl.
  - intros _. apply incl_refl.
  - tauto.
Qed.

(** A cleared multiselect is read as the selection of every option. *)
Lemma multiselect_all_cleared (options : list string) :
  multiselect_all [] options = multiselect_all options options.
Proof. unfold multiselect_all. now destruct options. Qed.

(** Clearing the three multiselects filters as selecting every option
    does. *)
Lemma dff_cleared (df_long : list LongRow) (a b : Timestamp) (n : nat) :
  dff df_long (mkSidebar a b [] [] [] n)
  = dff df_long (mkSidebar a b (data_types df_long) (clients df_long)
                   (services df_long) n).
Proof.
  unfold dff; simpl. now rewrite !multiselect_all_cleared.
Qed.

(** Under a cleared selection, a row in the month range whose three
    filtered cells are not blank passes. *)
Lemma dff_cleared_keeps (df_long : list LongRow) (a b : Timestamp)
    (n : nat) (r : LongRow) :
  In r df_long ->
  ts_leb a (Month r) = true -> ts_leb (Month r) b = true ->
  notna (Data_type r) = true -> notna (Client r) = true ->
  notna (Job_description r) = true ->
  In r (dff df_long (mkSidebar a b [] [] [] n)).
Proof.
  intros Hin Ha Hb Ht Hc Hs. unfold dff. apply filter_In. split; [exact Hin|].
  unfold mask; simpl. rewrite Ha, Hb; simpl.
  rewrite !multiselect_all_cleared. unfold multiselect_all.
  assert (Hopt : forall (f : LongRow -> cell),
             notna (f r) = true ->
             isin String.eqb (astype_str (f r))
               (if is_empty (options_of (map f df_long))
                then options_of (map f df_long)
                else options_of (map f df_long)) = true).
  { intros f Hf. apply (isin_In String.eqb string_eqb_eq).
    destruct (is_empty _); apply options_of_In; exists (f r);
      (split; [now apply in_map | now split]). }
  unfold data_types, clients, services.
  now rewrite (Hopt Data_type Ht), (Hopt Client Hc),
    (Hopt Job_description Hs).
Qed.

Lemma isin_selected_false (picked options : list string) :
  incl picked options -> ~ In "nan"%string options ->
  isin String.eqb "nan"%string (multiselect_all picked options) = false.
Proof.
  intros Hincl Hnot. apply (isin_false String.eqb string_eqb_eq).
  intro Hin. apply Hnot. now apply (multiselect_all_incl _ _ Hincl).
Qed.

(** In a loaded table no option of a multiselect is the text to which a
    blank is converted. *)
Lemma options_of_loaded (f : LongRow -> cell) (df_long : list LongRow) :
  (forall r, In r df_long -> f r <> Text "nan") ->
  ~ In "nan"%string (options_of (map f df_long)).
Proof.
  intros Hload Hin. apply options_of_In in Hin.
  destruct Hin as (c & Hc & Hn & Hs).
  apply in_map_iff in Hc. destruct Hc as (r & <- & Hr).
  specialize (Hload r Hr).
  destruct (f r) as [|q|s]; simpl in *.
  - discriminate.
  - now apply (float_repr_number q).
  - congruence.
Qed.

(** In a loaded table the rows that pass the filter have a Client, a Data
    type and a Job description that are not blank. *)
Lemma dff_no_blank (df_long : list LongRow) (w : Sidebar) (r : LongRow) :
  loaded df_long -> selectable df_long w -> In r (dff df_long w) ->
  Client r <> NaN /\ Data_type r <> NaN /\ Job_description r <> NaN.
Proof.
  intros Hload (St & Sc & Ss) Hin.
  assert (Hc : ~ In "nan"%string (clients df_long))
    by (apply options_of_loaded; intros x Hx; apply (Hload x Hx)).
  assert (Ht : ~ In "nan"%string (data_types df_long))
    by (apply options_of_loaded; intros x Hx; apply (Hload x Hx)).
  assert (Hs : ~ In "nan"%string (services df_long))
    by (apply options_of_loaded; intros x Hx; apply (Hload x Hx)).
  unfold dff in Hin. apply filter_In in Hin. destruct Hin as [_ Hmask].
  unfold mask in Hmask. rewrite !andb_true_iff in Hmask.
  destruct Hmask as ((((_ & _) & Mt) & Mc) & Ms).
  repeat split; intro E; rewrite E in *; simpl in *.
  - rewrite (isin_selected_false _ _ Sc Hc) in Mc. discriminate.
  - rewrite (isin_selected_false _ _ St Ht) in Mt. discriminate.
  - rewrite (isin_selected_false _ _ Ss Hs) in Ms. discriminate.
Qed.

(** C10: in a table that comes from a loaded sheet, a long row of which the
    Client, the Data type or the Job description is blank is left out of the
    filtered table under every selection that the multiselects can return,
    the default and the cleared one included: the options are built from
    the cells that are not blank, and the blank prints as a text that is
    none of them. *)
Theorem blank_rows_are_filtered_out (df_long : list LongRow) (w : Sidebar)
    (r : LongRow) :
  loaded df_long ->
  selectable df_long w ->
  Client r = NaN \/ Data_type r = NaN \/ Job_description r = NaN ->
  ~ In "nan"%string (clients df_long)
  /\ ~ In "nan"%string (data_types df_long)
  /\ ~ In "nan"%string (services df_long)
  /\ ~ In r (dff df_long w)
  /\ ~ In r (dff df_long
               (mkSidebar (start_m w) (end_m w) (data_types df_long)
                  (clients df_long) (services df_long) (top_n w)))
  /\ ~ In r (dff df_long (mkSidebar (start_m w) (end_m w) [] [] [] (top_n w))).
Proof.
  intros Hload Hsel Hblank.
  assert (Hc : ~ In "nan"%string (clients df_long))
    by (apply options_of_loaded; intros x Hx; apply (Hload x Hx)).
  assert (Ht : ~ In "nan"%string (data_types df_long))
    by (apply options_of_loaded; intros x Hx; apply (Hload x Hx)).
  assert (Hs : ~ In "nan"%string (services df_long))
    by (apply options_of_loaded; intros x Hx; apply (Hload x Hx)).
  assert (Hout : forall w', selectable df_long w' -> ~ In r (dff df_long w')).
  { intros w' Hsel' Hin.
    destruct (dff_no_blank df_long w' r Hload Hsel' Hin) as (H1 & H2 & H3).
    destruct Hblank as [E|[E|E]]; congruence. }
  split; [exact Hc|]. split; [exact Ht|]. split; [exact Hs|].
  split; [now apply Hout|]. split.
  - apply Hout. repeat split; apply incl_refl.
  - apply Hout. repeat split; intros x [].
Qed.
End Filter.

Lemma blank_rows_are_filtered_out_witness :
  loaded [Blanks.anonymous; Blanks.named]
  /\ selectable [Blanks.anonymous; Blanks.named] Blanks.cleared
  /\ ~ In Blanks.anonymous (dff [Blanks.anonymous; Blanks.named] Blanks.cleared).
Proof.
  assert (Hload : loaded [Blanks.anonymous; Blanks.named])
    by (intros r [<-|[<-|[]]]; repeat split; discriminate).
  assert (Hsel : selectable [Blanks.anonymous; Blanks.named] Blanks.cleared)
    by (repeat split; intros x []).
  split; [exact Hload|]. split; [exact Hsel|].
  apply (blank_rows_are_filtered_out _ Blanks.cleared Blanks.anonymous
           Hload Hsel).
  now left.
Defined.


(** ** Sums and groups *)

Local Open Scope Q_scope.

Lemma Qeq_of_eq (a b : Q) : a = b -> a == b.
Proof. intros ->. reflexivity. Qed.

Lemma fold_left_Qplus (l : list Q) (a : Q) :
  fold_left Qplus l a == a + sumQ l.
Proof.
  unfold sumQ. revert a. induction l as [|x l IH]; intro a; simpl.
  - ring.
  - rewrite (IH (a + x)), (IH (0 + x)). ring.
Qed.

Lemma sumQ_cons (x : Q) (l : list Q) : sumQ (x :: l) == x + sumQ l.
Proof.
  unfold sumQ at 1. simpl. rewrite fold_left_Qplus. ring.
Qed.

Lemma sumQ_map_ext_in {A : Type} (f g : A -> Q) (l : list A) :
  (forall x, In x l -> f x == g x) -> sumQ (map f l) == sumQ (map g l).
Proof.
  induction l as [|x l IH]; intro H; simpl.
  - reflexivity.
  - rewrite !sumQ_cons. apply Qplus_comp.
    + apply H. now left.
    + apply IH. intros y Hy. apply H. now right.
Qed.

Lemma exact_sum_cons (r : LongRow) (rows : list LongRow) :
  exact_sum (r :: rows)
  == match Value r with Some q => q | None => 0 end + exact_sum rows.
Proof. simpl. destruct (Value r); ring. Qed.

(** The exact sum is the sum of the entries that are not NaN. *)
Lemma exact_sum_valid (rows : list LongRow) :
  exact_sum rows == sumQ (valid (map Value rows)).
Proof.
  induction rows as [|r rows IH]; simpl.
  - reflexivity.
  - destruct (Value r) as [q|]; simpl; [|exact IH].
    now rewrite sumQ_cons, IH.
Qed.

(** The sum of a column splits along any predicate on the rows. *)
Lemma exact_sum_split (p : LongRow -> bool) (rows : list LongRow) :
  exact_sum rows
  == exact_sum (filter p rows)
     + exact_sum (filter (fun r => negb (p r)) rows).
Proof.
  induction rows as [|r rows IH].
  - simpl. ring.
  - simpl filter. destruct (p r); simpl negb; cbv iota;
      rewrite !exact_sum_cons, IH; ring.
Qed.

Lemma filter_nested_ext {A : Type} (p q : A -> bool) (l : list A) :
  (forall x, In x l -> p x = true -> q x = true) ->
  filter p (filter q l) = filter p l.
Proof.
  intro H. induction l as [|x l IH]; simpl.
  - reflexivity.
  - assert (IH' : filter p (filter q l) = filter p l)
      by (apply IH; intros y Hy; apply H; now right).
    destruct (q x) eqn:Eq; simpl.
    + now rewrite IH'.
    + destruct (p x) eqn:Ep.
      * rewrite (H x (or_introl eq_refl) Ep) in Eq. discriminate.
      * exact IH'.
Qed.

Section GroupFacts.
Context {K : Type} (eqb leb : K -> K -> bool) (key : LongRow -> option K).
Hypothesis eqb_eq : forall x y, eqb x y = true <-> x = y.

Lemma present_keys_In (k : K) (rows : list LongRow) :
  In k (present_keys key rows) <-> exists r, In r rows /\ key r = Some k.
Proof.
  induction rows as [|r rows IH]; simpl.
  - split; [tauto | intros [r [[] _]]].
  - destruct (key r) as [k'|] eqn:E; simpl; rewrite IH; split.
    + intros [->|[r' [H1 H2]]]; [exists r; tauto | exists r'; tauto].
    + intros [r' [[<-|H1] H2]]; [left; congruence | right; eauto].
    + intros [r' [H1 H2]]. exists r'; tauto.
    + intros [r' [[<-|H1] H2]]; [congruence | eauto].
Qed.

Lemma group_keys_In (k : K) (rows : list LongRow) :
  In k (group_keys eqb leb key rows)
  <-> exists r, In r rows /\ key r = Some k.
Proof.
  unfold group_keys. rewrite sorted_In, (unique_In eqb eqb_eq).
  apply present_keys_In.
Qed.

Lemma group_keys_NoDup (rows : list LongRow) :
  NoDup (group_keys eqb leb key rows).
Proof.
  unfold group_keys.
  eapply Permutation_NoDup; [apply Permutation_sym, sorted_perm|].
  apply (unique_NoDup eqb eqb_eq).
Qed.

(** Rows with a key split into the groups of any duplicate-free list of
    keys that covers them. *)
Lemma sum_over_groups (ks : list K) (rows : list LongRow) :
  NoDup ks ->
  (forall r, In r rows -> exists k, key r = Some k /\ In k ks) ->
  exact_sum rows
  == sumQ (map (fun k => exact_sum (filter (in_group eqb key k) rows))
             ks).
Proof.
  intro Hnd. revert rows. induction Hnd as [|k ks Hk Hnd IH]; intros rows Hcov.
  - destruct rows as [|r rows]; [reflexivity|].
    destruct (Hcov r (or_introl eq_refl)) as [k [_ []]].
  - simpl. rewrite sumQ_cons.
    rewrite (exact_sum_split (in_group eqb key k) rows).
    apply Qplus_comp; [reflexivity|].
    rewrite IH.
    + apply Qeq_of_eq. f_equal. apply map_ext_in. intros k' Hk'.
      f_equal. apply filter_nested_ext.
      intros r _ Hg. unfold in_group in *.
      destruct (key r) as [kr|]; [|discriminate].
      apply eqb_eq in Hg. subst kr.
      destruct (eqb k' k) eqn:E; [|reflexivity].
      apply eqb_eq in E. subst. contradiction.
    + intros r Hr. apply filter_In in Hr. destruct Hr as [Hr Hng].
      destruct (Hcov r Hr) as [kr [Ekr [Ek|Hin]]].
      * unfold in_group in Hng. rewrite Ekr in Hng.
        assert (Hrefl : eqb kr k = true) by now apply eqb_eq.
        rewrite Hrefl in Hng. discriminate.
      * eauto.
Qed.
End GroupFacts.

(** The worked example: one client, 100 in January and 50 in February. *)
Example scenario_revenue :
  let rows := [Scenario.row "A" "J1" "Svc1" Scenario.jan 100;
               Scenario.row "A" "J1" "Svc1" Scenario.feb 50] in
  revenue_total rows = 150
  /\ line_revenue_by_month rows = [(Scenario.jan, 100); (Scenario.feb, 50)].
Proof. split; vm_compute; reflexivity. Qed.

(** ** Rankings *)

Section SortedLists.
Context {A : Type} (R : A -> A -> Prop).

Lemma StronglySorted_app_inv (l1 l2 : list A) :
  StronglySorted R (l1 ++ l2) ->
  StronglySorted R l1 /\ StronglySorted R l2
  /\ forall a b, In a l1 -> In b l2 -> R a b.
Proof.
  induction l1 as [|x l1 IH]; simpl; intro Hs.
  - repeat split; [constructor | exact Hs | intros a b []].
  - inversion Hs as [|? ? Hs' Hx]; subst.
    destruct (IH Hs') as (H1 & H2 & H3).
    rewrite Forall_app in Hx. destruct Hx as [Hx1 Hx2].
    repeat split; [now constructor | exact H2 |].
    intros a b [<-|Ha] Hb.
    + rewrite Forall_forall in Hx2. now apply Hx2.
    + now apply H3.
Qed.

Lemma StronglySorted_firstn (n : nat) (l : list A) :
  StronglySorted R l -> StronglySorted R (firstn n l).
Proof.
  intro Hs. rewrite <- (firstn_skipn n l) in Hs.
  now apply StronglySorted_app_inv in Hs.
Qed.

Lemma StronglySorted_nth (l : list A) (d : A) (p q : nat) :
  StronglySorted R l -> (p < q < length l)%nat ->
  R (nth p l d) (nth q l d).
Proof.
  intro Hs. revert p q. induction Hs as [|x l Hs IH Hx]; intros p q Hpq.
  - simpl in Hpq. lia.
  - destruct q as [|q]; [lia|]. simpl in Hpq. destruct p as [|p]; simpl.
    + rewrite Forall_forall in Hx. apply Hx, nth_In. lia.
    + apply IH. lia.
Qed.
End SortedLists.

Lemma StronglySorted_map {A B : Type} (R : B -> B -> Prop) (f : A -> B)
    (l : list A) :
  StronglySorted (fun a b => R (f a) (f b)) l -> StronglySorted R (map f l).
Proof.
  induction 1 as [|x l Hs IH Hx]; simpl.
  - constructor.
  - constructor; [exact IH|].
    apply Forall_forall. intros b Hb. apply in_map_iff in Hb.
    destruct Hb as [a [<- Ha]]. rewrite Forall_forall in Hx. now apply Hx.
Qed.

Lemma take_all {A : Type} (d : A) (frame : list A) :
  take d frame (seq 0 (length frame)) = frame.
Proof.
  unfold take. induction frame as [|x frame IH]; simpl.
  - reflexivity.
  - f_equal. rewrite <- seq_shift, map_map. exact IH.
Qed.

Lemma insert_rank_fst {A : Type} (frame : list A) :
  map fst (insert_rank frame) = seq 1 (length frame).
Proof.
  unfold insert_rank. generalize 1%nat.
  induction frame as [|x frame IH]; intro s; simpl.
  - reflexivity.
  - now rewrite IH.
Qed.

Lemma insert_rank_snd {A : Type} (frame : list A) :
  map snd (insert_rank frame) = frame.
Proof.
  unfold insert_rank. generalize 1%nat.
  induction frame as [|x frame IH]; intro s; simpl.
  - reflexivity.
  - now rewrite IH.
Qed.

Section Ranking.
Context `{RT : Runtime}.

Lemma argsort_desc_length (vs : list Q) :
  length (argsort_desc vs) = length vs.
Proof.
  rewrite (Permutation_length (argsort_desc_perm vs)). apply length_seq.
Qed.

Lemma sort_values_desc_perm (frame : list (cell * Q)) :
  Permutation (sort_values_desc frame) frame.
Proof.
  unfold sort_values_desc, take.
  eapply perm_trans; [apply Permutation_map, argsort_desc_perm|].
  rewrite length_map. fold (take (NaN, 0) frame (seq 0 (length frame))).
  rewrite take_all. apply Permutation_refl.
Qed.

Lemma sort_values_desc_sorted (frame : list (cell * Q)) :
  StronglySorted (fun a b : cell * Q => snd b <= snd a)
    (sort_values_desc frame).
Proof.
  unfold sort_values_desc, take. apply StronglySorted_map.
  pose proof (argsort_desc_sorted (map snd frame)) as Hs.
  eapply StronglySorted_ind
    with (P := StronglySorted
                 (fun i j => snd (nth j frame (NaN, 0))
                             <= snd (nth i frame (NaN, 0))));
    [constructor | | exact Hs].
  intros i l _ IH Hi. constructor; [exact IH|].
  eapply Forall_impl; [|exact Hi].
  intros j Hj.
  now rewrite <- !(map_nth snd frame (NaN, 0)).
Qed.

Lemma sort_values_desc_length (frame : list (cell * Q)) :
  length (sort_values_desc frame) = length frame.
Proof. apply Permutation_length, sort_values_desc_perm. Qed.
End Ranking.

Lemma unique_acc_incl {A : Type} (eqb : A -> A -> bool) (x : A)
    (l seen : list A) :
  In x (unique_acc eqb seen l) -> In x l.
Proof.
  revert seen. induction l as [|y l IH]; intros seen; simpl.
  - tauto.
  - destruct (isin eqb y seen).
    + intro H. right. now apply IH with seen.
    + intros [->|H]; [now left | right; now apply IH with (y :: seen)].
Qed.

(** What a row of [client_rev] holds: a client that is present and not blank,
    with the sum of the values of the rows of that client. *)
Lemma client_rev_In `{RT : Runtime} (rows : list LongRow) (c : cell)
    (v : Q) :
  In (c, v) (client_rev rows) ->
  c <> NaN
  /\ (exists r, In r rows /\ Client r = c)
  /\ v = Group_sum
           (map Value
              (filter (in_group cell_eqb (fun r => cell_key (Client r)) c)
                 rows)).
Proof.
  unfold client_rev, groupby_sum, groupby. rewrite map_map. simpl.
  intro Hin. apply in_map_iff in Hin. destruct Hin as [k [E Hk]].
  injection E as <- <-.
  unfold group_keys in Hk. apply sorted_In in Hk.
  apply unique_acc_incl in Hk. apply (present_keys_In cell_eqb) in Hk.
  destruct Hk as [r [Hr Hkey]].
  assert (Hc : Client r = k /\ k <> NaN).
  { destruct (Client r) as [|x|s]; simpl in Hkey;
      [discriminate
      | injection Hkey as <-; split; [reflexivity | discriminate]
      | injection Hkey as <-; split; [reflexivity | discriminate]]. }
  destruct Hc as [Hc Hn]. split; [exact Hn|]. split; [eauto | reflexivity].
Qed.

(** The reference runtime sorts stably. *)
Module StableReference.
Import Reference.

Definition geb (a b : nat * Q) : bool := Qle_bool (snd b) (snd a).

(** [a] stands before [b]: a higher value, or the same value and an
    earlier position. *)
Definition before (a b : nat * Q) : Prop :=
  snd b < snd a \/ (snd b == snd a /\ (fst a < fst b)%nat).

Lemma before_le (a b : nat * Q) : before a b -> snd b <= snd a.
Proof.
  intros [H|[H _]]; [now apply Qlt_le_weak | rewrite H; apply Qle_refl].
Qed.

Lemma insert_stable (x : nat * Q) (l : list (nat * Q)) :
  StronglySorted before l ->
  Forall (fun z => (fst x < fst z)%nat) l ->
  StronglySorted before (insert_sorted geb x l).
Proof.
  induction 1 as [|y l Hs IH Hy]; intro Hpos; simpl.
  - repeat constructor.
  - inversion Hpos as [|? ? Hxy Hxl]; subst.
    unfold geb at 1. destruct (Qle_bool (snd y) (snd x)) eqn:E.
    + apply Qle_bool_iff in E.
      constructor; [now constructor|].
      assert (Hle : Forall (fun z => snd z <= snd x) (y :: l)).
      { constructor; [exact E|].
        eapply Forall_impl; [|exact Hy].
        intros z Hz. eapply Qle_trans; [apply before_le, Hz | exact E]. }
      rewrite Forall_forall in Hle, Hpos. apply Forall_forall.
      intros z Hz. specialize (Hle z Hz). specialize (Hpos z Hz).
      apply Qle_lt_or_eq in Hle. destruct Hle as [Hlt|Heq].
      * now left.
      * right. now split.
    + constructor; [now apply IH|].
      eapply Permutation_Forall;
        [apply Permutation_sym, insert_sorted_perm|].
      constructor; [|exact Hy].
      left. apply Qnot_le_lt. intro Hle. apply Qle_bool_iff in Hle.
      congruence.
Qed.

Lemma sorted_pairs_stable (vs : list Q) (s : nat) :
  StronglySorted before (sorted geb (combine (seq s (length vs)) vs)).
Proof.
  revert s. induction vs as [|x vs IH]; intro s; simpl.
  - constructor.
  - apply insert_stable; [apply IH|].
    apply Forall_forall. intros [i v] Hin. apply sorted_In in Hin.
    apply ReferenceFacts.in_combine_seq in Hin. simpl. lia.
Qed.

Lemma reference_is_stable : stable_sort reference_runtime.
Proof.
  intros vs p q Hpq Heq. simpl in *.
  unfold argsort_stable, argsort_by in *. fold geb in *.
  set (P := sorted geb (combine (seq 0 (length vs)) vs)) in *.
  assert (Hfst : forall n, nth n (map fst P) O = fst (nth n P (O, 0)))
    by (intro n; apply (map_nth fst P (O, 0))).
  rewrite !Hfst in *.
  assert (Hlen : length P = length vs).
  { unfold P. rewrite sorted_length, length_combine, length_seq.
    apply Nat.min_id. }
  assert (Hval : forall n, (n < length vs)%nat ->
             nth (fst (nth n P (O, 0))) vs 0 = snd (nth n P (O, 0))).
  { intros n Hn.
    assert (Hin : In (nth n P (O, 0)) P) by (apply nth_In; lia).
    destruct (nth n P (O, 0)) as [i v]. apply sorted_In in Hin.
    apply ReferenceFacts.in_combine_seq in Hin. simpl.
    destruct Hin as [_ Hn']. now rewrite Nat.sub_0_r in Hn'. }
  rewrite !Hval in Heq by lia.
  assert (Hb : before (nth p P (O, 0)) (nth q P (O, 0))).
  { apply StronglySorted_nth; [apply sorted_pairs_stable | lia]. }
  destruct Hb as [Hlt|[_ Hpos]]; [|exact Hpos].
  rewrite Heq in Hlt. exfalso. apply (Qlt_irrefl _ Hlt).
Qed.
End StableReference.

(** ** Services by usage *)

Lemma usage_revenue_geb_true (a b : ServiceUsage) :
  usage_revenue_geb a b = true -> usage_then_revenue a b.
Proof.
  unfold usage_revenue_geb, usage_then_revenue. intro H.
  apply orb_true_iff in H. destruct H as [H|H].
  - left. now apply Nat.ltb_lt.
  - apply andb_true_iff in H. destruct H as [H1 H2]. right.
    split; [now apply Nat.eqb_eq | now apply Qle_bool_iff].
Qed.

Lemma usage_revenue_geb_false (a b : ServiceUsage) :
  usage_revenue_geb a b = false -> usage_then_revenue b a.
Proof.
  unfold usage_revenue_geb, usage_then_revenue. intro H.
  apply orb_false_iff in H. destruct H as [H1 H2].
  apply Nat.ltb_ge in H1. apply andb_false_iff in H2.
  destruct (Nat.eq_dec (Usage a) (Usage b)) as [E|N].
  - destruct H2 as [H2|H2].
    + apply Nat.eqb_neq in H2. contradiction.
    + right. split; [now symmetry|].
      apply ReferenceFacts.Qle_bool_false. exact H2.
  - left. lia.
Qed.

Lemma usage_then_revenue_trans (a b c : ServiceUsage) :
  usage_then_revenue a b -> usage_then_revenue b c -> usage_then_revenue a c.
Proof.
  unfold usage_then_revenue.
  intros [H1|[E1 L1]] [H2|[E2 L2]].
  - left. lia.
  - left. lia.
  - left. lia.
  - right. split; [congruence|]. eapply Qle_trans; eassumption.
Qed.

Lemma unique_nonempty {A : Type} (eqb : A -> A -> bool) (l : list A) :
  l <> [] -> unique eqb l <> [].
Proof. destruct l; [congruence | discriminate]. Qed.

Lemma nonempty_length {A : Type} (l : list A) :
  l <> [] <-> (0 < length l)%nat.
Proof. destruct l; simpl; split; try congruence; try lia; discriminate. Qed.

Lemma usage_population_spec (df_ : list LongRow) :
  (filter positive df_ = [] -> usage_population df_ = df_)
  /\ (filter positive df_ <> [] -> usage_population df_ = filter positive df_).
Proof.
  unfold usage_population. destruct (filter positive df_); simpl.
  - split; [reflexivity | congruence].
  - split; [discriminate | reflexivity].
Qed.

(** ** The export *)

Lemma count_LF_app (a b : string) :
  count_LF (a ++ b) = (count_LF a + count_LF b)%nat.
Proof.
  induction a as [|c a IH]; simpl.
  - reflexivity.
  - rewrite IH. lia.
Qed.

Lemma count_LF_double_quotes (s : string) :
  count_LF (double_quotes s) = count_LF s.
Proof.
  induction s as [|c s IH]; simpl.
  - reflexivity.
  - destruct (Ascii.eqb c dquote) eqn:E; simpl.
    + apply Ascii.eqb_eq in E. subst c. simpl. exact IH.
    + now rewrite IH.
Qed.

(** Quoting a field neither adds nor removes a line feed. *)
Lemma count_LF_csv_field (s : string) : count_LF (csv_field s) = count_LF s.
Proof.
  unfold csv_field. destruct (needs_quoting s); [|reflexivity].
  simpl. rewrite count_LF_app, count_LF_double_quotes. simpl. lia.
Qed.

Lemma count_LF_join (fields : list string) :
  count_LF (String.concat (String comma EmptyString) fields)
  = list_sum (map count_LF fields).
Proof.
  induction fields as [|f fields IH]; simpl.
  - reflexivity.
  - destruct fields as [|f' fields].
    + simpl. lia.
    + rewrite count_LF_app. simpl in *. rewrite IH. reflexivity.
Qed.

Lemma count_LF_csv_line (fields : list string) :
  count_LF (csv_line fields) = (1 + list_sum (map count_LF fields))%nat.
Proof.
  unfold csv_line. rewrite count_LF_app, count_LF_join, map_map. simpl.
  rewrite (map_ext _ count_LF count_LF_csv_field). lia.
Qed.

Lemma count_LF_lines (lines : list string) :
  count_LF (String.concat EmptyString lines)
  = list_sum (map count_LF lines).
Proof.
  induction lines as [|l lines IH]; simpl.
  - reflexivity.
  - destruct lines as [|l' lines].
    + simpl. lia.
    + simpl in *. rewrite count_LF_app, IH. reflexivity.
Qed.

Section CsvExport.
Context `{RT : Runtime}.

Lemma one_line_breaks (r : LongRow) : one_line r = true -> breaks_in r = O.
Proof.
  unfold one_line, breaks_in. generalize (csv_fields r).
  induction l as [|f l IH]; simpl; [reflexivity|].
  intro H. apply andb_true_iff in H. destruct H as [H1 H2].
  apply Nat.eqb_eq in H1. rewrite H1, (IH H2). reflexivity.
Qed.

Lemma count_LF_to_csv (rows : list LongRow) :
  count_LF (to_csv rows)
  = (1 + length rows + list_sum (map breaks_in rows))%nat.
Proof.
  unfold to_csv. rewrite count_LF_app, count_LF_lines, map_map.
  rewrite count_LF_csv_line.
  replace (list_sum (map count_LF csv_header)) with O by reflexivity.
  induction rows as [|r rows IH]; simpl.
  - reflexivity.
  - rewrite count_LF_csv_line. fold (breaks_in r). simpl in IH. lia.
Qed.

(** C9, as amended: the export is the byte order mark of the codec
    followed by the header line and one comma-separated record per row of
    the filtered table, in the order of its rows; it has one line feed for
    the header, one per row, and one per line break inside a printed
    field, so that it has exactly one line per row when no field holds a
    line break. *)
Theorem csv_records (dff : list LongRow) :
  csv dff
  = (BOM ++ csv_line csv_header
     ++ String.concat EmptyString
          (map (fun r => csv_line (csv_fields r)) dff))%string
  /\ (forall fields,
        csv_line fields
        = (String.concat (String comma EmptyString) (map csv_field fields)
           ++ String LF EmptyString)%string)
  /\ count_LF (csv dff)
     = (1 + length dff + list_sum (map breaks_in dff))%nat
  /\ (forallb one_line dff = true ->
      count_LF (csv dff) = (1 + length dff)%nat).
Proof.
  assert (Hcount : count_LF (csv dff)
                   = (1 + length dff + list_sum (map breaks_in dff))%nat).
  { unfold csv, encode_utf8_sig. rewrite count_LF_app, count_LF_to_csv.
    reflexivity. }
  split; [reflexivity|]. split; [reflexivity|]. split; [exact Hcount|].
  intro Hone. rewrite Hcount.
  assert (Hz : list_sum (map breaks_in dff) = O).
  { induction dff as [|r rows IH]; simpl; [reflexivity|].
    simpl in Hone. apply andb_true_iff in Hone. destruct Hone as [H1 H2].
    rewrite (one_line_breaks r H1). apply IH; [|exact H2].
    unfold csv, encode_utf8_sig. rewrite count_LF_app, count_LF_to_csv.
    reflexivity. }
  lia.
Qed.
End CsvExport.

Lemma csv_records_witness :
  forallb one_line Scenario.long = true
  /\ count_LF (csv Scenario.long) = (1 + length Scenario.long)%nat.
Proof.
  assert (Hone : forallb one_line Scenario.long = true)
    by (vm_compute; reflexivity).
  split; [exact Hone|].
  exact (proj2 (proj2 (proj2 (csv_records Scenario.long))) Hone).
Defined.

(** The export of one row: the mark, the header and one record. *)
Example csv_of_one_row :
  csv [Scenario.row "A" "J1" "Svc1" Scenario.jan 100]
  = (BOM ++ "Client,Job,Job description,Data type,Month,Value"
     ++ String LF "A,J1,Svc1,T1,2024-01-01,100.0" ++ String LF "")%string.
Proof. vm_compute. reflexivity. Qed.

(** C9, as stated, fails: the export of a table with one row, of which the
    Job description holds a line break, has three lines, not a header line
    and one line for the row. *)
Lemma csv_more_lines_than_rows :
  length TwoLines.rows = 1%nat
  /\ count_LF (csv TwoLines.rows) = 3%nat
  /\ count_LF (csv TwoLines.rows) <> (1 + length TwoLines.rows)%nat.
Proof.
  split; [reflexivity|]. split; [vm_compute; reflexivity|].
  vm_compute. discriminate.
Qed.

(** * Further properties of the script *)

(** ** Months *)

Ltac ts_order :=
  unfold ts_leb, ts_ltb, ts_compare; simpl;
  repeat match goal with
         | |- context [Z.compare ?x ?y] => destruct (Z.compare_spec x y)
         end;
  try discriminate; try reflexivity; try lia.

Lemma ts_leb_refl (a : Timestamp) : ts_leb a a = true.
Proof. destruct a as [y m d t]. ts_order. Qed.

Lemma ts_leb_trans (a b c : Timestamp) :
  ts_leb a b = true -> ts_leb b c = true -> ts_leb a c = true.
Proof.
  destruct a as [y m d t], b as [y' m' d' t'], c as [y'' m'' d'' t''].
  ts_order.
Qed.

Lemma ts_leb_total (a b : Timestamp) :
  ts_leb a b = false -> ts_leb b a = true.
Proof. destruct a as [y m d t], b as [y' m' d' t']. ts_order. Qed.

Lemma ts_ltb_leb (a b : Timestamp) : ts_ltb a b = true -> ts_leb a b = true.
Proof. destruct a as [y m d t], b as [y' m' d' t']. ts_order. Qed.

Lemma ts_ltb_false (a b : Timestamp) : ts_ltb a b = false -> ts_leb b a = true.
Proof. destruct a as [y m d t], b as [y' m' d' t']. ts_order. Qed.

Lemma ts_leb_neq_ltb (a b : Timestamp) :
  ts_leb a b = true -> a <> b -> ts_ltb a b = true.
Proof.
  intros Hle Hne. destruct (ts_ltb a b) eqn:E; [reflexivity|].
  exfalso. apply Hne. apply ts_eqb_eq.
  revert Hle E. unfold ts_eqb, ts_leb, ts_ltb.
  destruct (ts_compare a b); congruence.
Qed.

Lemma ts_leb_antisym (a b : Timestamp) :
  ts_leb a b = true -> ts_leb b a = true -> a = b.
Proof.
  intros Hab Hba. destruct (ts_ltb a b) eqn:E.
  - exfalso. revert Hba E. destruct a as [y m d t], b as [y' m' d' t'].
    ts_order.
  - apply ts_eqb_eq. revert Hab E. unfold ts_eqb, ts_leb, ts_ltb.
    destruct (ts_compare a b); congruence.
Qed.

Lemma first_of_month_idem (t : Timestamp) :
  first_of_month (first_of_month t) = first_of_month t.
Proof. reflexivity. Qed.

Lemma StronglySorted_strict {A : Type} (R : A -> A -> Prop) (l : list A) :
  StronglySorted R l -> NoDup l ->
  StronglySorted (fun a b => R a b /\ a <> b) l.
Proof.
  induction 1 as [|x l Hs IH Hx]; intro Hnd.
  - constructor.
  - inversion Hnd as [|? ? Hnx Hnd']; subst.
    constructor; [now apply IH|].
    apply Forall_forall. intros y Hy. rewrite Forall_forall in Hx.
    split; [now apply Hx|]. intros ->. contradiction.
Qed.

Lemma StronglySorted_weaken {A : Type} (R R' : A -> A -> Prop)
    (l : list A) :
  (forall a b, R a b -> R' a b) -> StronglySorted R l -> StronglySorted R' l.
Proof.
  intro Himp. induction 1 as [|x l Hs IH Hx].
  - constructor.
  - constructor; [exact IH|].
    eapply Forall_impl; [|exact Hx]. intros b. apply Himp.
Qed.

Lemma py_min_fold (l : list Timestamp) (x : Timestamp) :
  let m := fold_left (fun m y => if ts_ltb y m then y else m) l x in
  In m (x :: l) /\ forall y, In y (x :: l) -> ts_leb m y = true.
Proof.
  revert x. induction l as [|z l IH]; intro x; simpl.
  - split; [now left|]. intros y [<-|[]]. apply ts_leb_refl.
  - destruct (ts_ltb z x) eqn:E.
    + destruct (IH z) as [Hin Hle]. simpl in Hin, Hle. split; [tauto|].
      intros y [<-|Hy].
      * eapply ts_leb_trans; [apply Hle; now left | now apply ts_ltb_leb].
      * now apply Hle.
    + destruct (IH x) as [Hin Hle]. simpl in Hin, Hle. split; [tauto|].
      intros y [<-|[<-|Hy]].
      * apply Hle. now left.
      * eapply ts_leb_trans; [apply Hle; now left | now apply ts_ltb_false].
      * apply Hle. now right.
Qed.

Lemma py_max_fold (l : list Timestamp) (x : Timestamp) :
  let m := fold_left (fun m y => if ts_ltb m y then y else m) l x in
  In m (x :: l) /\ forall y, In y (x :: l) -> ts_leb y m = true.
Proof.
  revert x. induction l as [|z l IH]; intro x; simpl.
  - split; [now left|]. intros y [<-|[]]. apply ts_leb_refl.
  - destruct (ts_ltb x z) eqn:E.
    + destruct (IH z) as [Hin Hle]. simpl in Hin, Hle. split; [tauto|].
      intros y [<-|Hy].
      * apply ts_leb_trans with z; [now apply ts_ltb_leb | apply Hle; now left].
      * now apply Hle.
    + destruct (IH x) as [Hin Hle]. simpl in Hin, Hle. split; [tauto|].
      intros y [<-|[<-|Hy]].
      * apply Hle. now left.
      * apply ts_leb_trans with x; [now apply ts_ltb_false | apply Hle; now left].
      * apply Hle. now right.
Qed.

Lemma py_min_spec (l : list Timestamp) (m : Timestamp) :
  py_min l = Some m -> In m l /\ forall y, In y l -> ts_leb m y = true.
Proof.
  destruct l as [|x l]; simpl; [discriminate|].
  intro E. injection E as <-. apply py_min_fold.
Qed.

Lemma py_max_spec (l : list Timestamp) (m : Timestamp) :
  py_max l = Some m -> In m l /\ forall y, In y l -> ts_leb y m = true.
Proof.
  destruct l as [|x l]; simpl; [discriminate|].
  intro E. injection E as <-. apply py_max_fold.
Qed.

Section Months.
Context `{RT : Runtime}.

Lemma to_long_Month (df : DataFrame) (long : list LongRow)
    (months : list Timestamp) (r : LongRow) :
  to_long df = inr (long, months) -> In r long ->
  exists t, In t (date_columns (columns df)) /\ Month r = first_of_month t.
Proof.
  intros Hok Hr. apply to_long_inr in Hok. destruct Hok as (_ & _ & -> & _).
  apply in_flat_map in Hr. destruct Hr as [t [Ht Hr]].
  apply in_map_iff in Hr. destruct Hr as [row [<- _]]. now exists t.
Qed.

Lemma to_long_months_In (df : DataFrame) (long : list LongRow)
    (months : list Timestamp) (m : Timestamp) :
  to_long df = inr (long, months) ->
  (In m months <-> exists r, In r long /\ Month r = m).
Proof.
  intro Hok. pose proof (to_long_inr _ _ _ Hok) as (_ & _ & _ & Hm).
  rewrite Hm, sorted_In, (unique_In ts_eqb ts_eqb_eq), in_map_iff.
  split; intros [r [H1 H2]]; exists r; tauto.
Qed.

(** Between the least and the greatest of the months lie the months of all
    the long rows, and both are first instants of a month. *)
Lemma months_bound_rows (df : DataFrame) (long : list LongRow)
    (months : list Timestamp) (min_month max_month : Timestamp) :
  to_long df = inr (long, months) ->
  py_min months = Some min_month -> py_max months = Some max_month ->
  first_of_month min_month = min_month
  /\ first_of_month max_month = max_month
  /\ forall r, In r long ->
       ts_leb min_month (Month r) = true /\ ts_leb (Month r) max_month = true.
Proof.
  intros Hok Hmin Hmax.
  apply py_min_spec in Hmin. destruct Hmin as [Hmin_in Hmin].
  apply py_max_spec in Hmax. destruct Hmax as [Hmax_in Hmax].
  assert (Hfirst : forall m, In m months -> first_of_month m = m).
  { intros m Hm. apply (to_long_months_In _ _ _ _ Hok) in Hm.
    destruct Hm as [r [Hr <-]].
    destruct (to_long_Month _ _ _ _ Hok Hr) as [t [_ ->]]. reflexivity. }
  split; [now apply Hfirst|]. split; [now apply Hfirst|].
  intros r Hr.
  assert (Hm : In (Month r) months)
    by (apply (to_long_months_In _ _ _ _ Hok); eauto).
  split; [now apply Hmin | now apply Hmax].
Qed.

(** The list of months that [to_long] returns holds exactly the months of
    the long rows, each once, in strictly ascending order, and each is the
    first instant of the month of some date header. *)
Theorem to_long_months (df : DataFrame) (long : list LongRow)
    (months : list Timestamp) :
  to_long df = inr (long, months) ->
  StronglySorted (fun a b => ts_ltb a b = true) months
  /\ (forall m, In m months <-> exists r, In r long /\ Month r = m)
  /\ (forall m, In m months ->
        exists t, In t (date_columns (columns df))
                  /\ m = first_of_month t).
Proof.
  intro Hok. pose proof (to_long_inr _ _ _ Hok) as (_ & _ & _ & Hm).
  split; [|split].
  - assert (Hs : StronglySorted
                   (fun a b => ts_leb a b = true /\ a <> b) months).
    { apply StronglySorted_strict.
      - rewrite Hm. apply sorted_sorted.
        + apply ts_leb_trans.
        + tauto.
        + apply ts_leb_total.
      - rewrite Hm. eapply Permutation_NoDup;
          [apply Permutation_sym, sorted_perm|].
        apply (unique_NoDup ts_eqb ts_eqb_eq). }
    eapply StronglySorted_weaken; [|exact Hs].
    intros a b [Hle Hne]. now apply ts_leb_neq_ltb.
  - intro m. exact (to_long_months_In df long months m Hok).
  - intros m Hmem. apply (to_long_months_In _ _ _ _ Hok) in Hmem.
    destruct Hmem as [r [Hr <-]].
    destruct (to_long_Month _ _ _ _ Hok Hr) as [t [Ht E]]. eauto.
Qed.

(** [detect_month_cols] returns the date headers, each as often as it
    occurs, in ascending order. *)
Theorem detect_month_cols_sorted (df : DataFrame) :
  Permutation (detect_month_cols df) (date_columns (columns df))
  /\ StronglySorted (fun a b => ts_leb a b = true) (detect_month_cols df).
Proof.
  split; [apply sorted_perm|].
  apply sorted_sorted; [apply ts_leb_trans | tauto | apply ts_leb_total].
Qed.

(** [to_long] succeeds exactly when the four identifier columns are among
    the headers, at least one header is a date, and no header is the text
    [Value], the name that [melt] gives to the column of the values. *)
Theorem to_long_succeeds_iff (df : DataFrame) :
  (exists long months, to_long df = inr (long, months))
  <-> (forall c, In c ID_COLS -> In c (columns df))
      /\ date_columns (columns df) <> []
      /\ ~ In (LText "Value") (columns df).
Proof.
  split.
  - intros (long & months & Hok).
    pose proof (to_long_no_Value_column _ _ _ Hok) as Hval.
    apply to_long_inr in Hok.
    destruct Hok as (Hmiss & Hcols & _ & _).
    split; [|split; [exact Hcols|]].
    2:{ intro Hin. apply (isin_In label_eqb label_eqb_eq) in Hin.
        congruence. }
    intros c Hc.
    destruct (isin label_eqb c (columns df)) eqn:E.
    + now apply (isin_In label_eqb label_eqb_eq).
    + assert (Hin : In c (filter (fun c => negb (isin label_eqb c
                                                   (columns df))) ID_COLS))
        by (apply filter_In; split; [exact Hc | now rewrite E]).
      rewrite Hmiss in Hin. destruct Hin.
  - intros (Hall & Hcols & Hval). unfold to_long.
    assert (Hmiss : filter (fun c => negb (isin label_eqb c (columns df)))
                      ID_COLS = []).
    { destruct (filter _ ID_COLS) as [|c l] eqn:E; [reflexivity|].
      assert (Hin : In c (c :: l)) by now left.
      rewrite <- E in Hin. apply filter_In in Hin. destruct Hin as [Hc Hn].
      apply Hall in Hc. apply (isin_In label_eqb label_eqb_eq) in Hc.
      rewrite Hc in Hn. discriminate. }
    rewrite Hmiss. cbn [negb is_empty].
    unfold detect_month_cols.
    destruct (is_empty (sorted ts_leb (date_columns (columns df)))) eqn:E.
    + exfalso. apply Hcols.
      destruct (date_columns (columns df)) as [|t l]; [reflexivity|].
      assert (Hlen : length (sorted ts_leb (t :: l)) = length (t :: l))
        by apply sorted_length.
      destruct (sorted ts_leb (t :: l)); simpl in *; [lia | discriminate].
    + unfold melt.
      rewrite (proj2 (isin_false label_eqb label_eqb_eq _ _) Hval). eauto.
Qed.
End Months.

(** ** The first run and the filter *)

Section FirstRun.
Context `{RT : Runtime}.

Lemma to_long_no_rows (df : DataFrame) (long : list LongRow)
    (months : list Timestamp) :
  to_long df = inr (long, months) ->
  (months = [] <-> data df = []) /\ (long = [] <-> data df = []).
Proof.
  intro Hok. pose proof (to_long_inr _ _ _ Hok) as (_ & Hcols & Hl & Hm).
  assert (Hlen : length long
                 = (length (data df) * length (date_columns (columns df)))%nat)
    by (rewrite Hl; apply flat_map_blocks_length).
  assert (Hlong : long = [] <-> data df = []).
  { split; intro E.
    - rewrite E in Hlen. simpl in Hlen.
      destruct (data df); [reflexivity|].
      destruct (date_columns (columns df)); [congruence | simpl in Hlen; lia].
    - rewrite E in Hlen. simpl in Hlen. now destruct long. }
  split; [|exact Hlong].
  rewrite <- Hlong. split; intro E.
  - destruct long as [|r long']; [reflexivity|].
    assert (Hin : In (Month r) months).
    { rewrite Hm. apply sorted_In. apply (unique_In ts_eqb ts_eqb_eq).
      now left. }
    rewrite E in Hin. destruct Hin.
  - rewrite Hm, E. reflexivity.
Qed.

(** On a sheet that [to_long] accepts, the first run stops on the minimum of
    an empty list of months exactly when the sheet has no row of data. *)
Theorem first_run_empty_sheet (df : DataFrame) (long : list LongRow)
    (months : list Timestamp) :
  to_long df = inr (long, months) ->
  (first_run df = inl NoMonthStop <-> data df = []).
Proof.
  intro Hok. pose proof (to_long_no_rows _ _ _ Hok) as [Hmonths _].
  rewrite <- Hmonths. unfold first_run. rewrite Hok.
  destruct months as [|m months']; cbn [py_min py_max].
  - tauto.
  - split; [|discriminate].
    destruct (month_slider _ _ None) as [range|]; [|discriminate].
    destruct (is_empty _); discriminate.
Qed.

(** When the slider of the months is drawn on a first run, which takes a
    least month that differs from the greatest, it spans from the least to
    the greatest month of the long table, no row lies outside of it, the
    selections are ones the widgets can return, and every row of which the
    Data type, the Client and the Job description are not blank is in the
    filtered table. *)
Theorem first_run_keeps_rows (df : DataFrame) (long : list LongRow)
    (months : list Timestamp) (min_month max_month : Timestamp)
    (range : Timestamp * Timestamp) :
  to_long df = inr (long, months) ->
  py_min months = Some min_month -> py_max months = Some max_month ->
  month_slider min_month max_month None = Some range ->
  let w := initial_sidebar long range in
  ts_ltb min_month max_month = true
  /\ start_m w = min_month /\ end_m w = max_month
  /\ selectable long w
  /\ (forall r, In r long ->
        ts_leb (start_m w) (Month r) = true
        /\ ts_leb (Month r) (end_m w) = true)
  /\ (forall r, In r long ->
        notna (Data_type r) = true -> notna (Client r) = true ->
        notna (Job_description r) = true ->
        In r (dff long w)).
Proof.
  intros Hok Hmin Hmax Hslider w.
  destruct (months_bound_rows df long months _ _ Hok Hmin Hmax)
    as (Ha & Hb & Hrange).
  unfold month_slider in Hslider. rewrite Ha, Hb in Hslider.
  destruct (ts_eqb min_month max_month) eqn:Eq; [discriminate|].
  injection Hslider as <-.
  unfold w, initial_sidebar. simpl.
  split.
  { apply ts_leb_neq_ltb.
    - apply py_min_spec in Hmin. apply py_max_spec in Hmax.
      apply (proj2 Hmax), (proj1 Hmin).
    - intro E. apply ts_eqb_eq in E. congruence. }
  split; [reflexivity|]. split; [reflexivity|]. split.
  { repeat split; apply incl_refl. }
  split; [exact Hrange|].
  intros r Hr Ht Hc Hs. rewrite <- dff_cleared.
  destruct (Hrange r Hr) as [H1 H2]. now apply dff_cleared_keeps.
Qed.

(** On a sheet that [to_long] accepts, the first run ends at the slider of
    the months exactly when all the long rows fall in one month. *)
Theorem first_run_one_month (df : DataFrame) (long : list LongRow)
    (months : list Timestamp) :
  to_long df = inr (long, months) ->
  (first_run df = inl SliderStop <-> exists m, months = [m]).
Proof.
  intro Hok. unfold first_run. rewrite Hok. split.
  - destruct (py_min months) as [a|] eqn:Hmin; [|discriminate].
    destruct (py_max months) as [b|] eqn:Hmax; [|discriminate].
    destruct (months_bound_rows df long months a b Hok Hmin Hmax)
      as (Ha & Hb & _).
    unfold month_slider. rewrite Ha, Hb.
    destruct (ts_eqb a b) eqn:Eab;
      [|destruct (is_empty _); discriminate].
    intros _. apply ts_eqb_eq in Eab. subst b.
    apply py_min_spec in Hmin. apply py_max_spec in Hmax.
    destruct Hmin as [Hin Hlow]. destruct Hmax as [_ Hhigh].
    assert (Hall : forall y, In y months -> y = a).
    { intros y Hy. symmetry. now apply ts_leb_antisym; [apply Hlow | apply Hhigh]. }
    assert (Hnd : NoDup months).
    { pose proof (to_long_inr _ _ _ Hok) as (_ & _ & _ & ->).
      eapply Permutation_NoDup; [apply Permutation_sym, sorted_perm|].
      apply (unique_NoDup ts_eqb ts_eqb_eq). }
    destruct months as [|x [|y rest]].
    + destruct Hin.
    + now exists x.
    + exfalso. inversion Hnd as [|? ? Hx _]; subst. apply Hx. left.
      rewrite (Hall x), (Hall y); [reflexivity | right; now left | now left].
  - intros [m ->]. cbn [py_min py_max fold_left]. unfold month_slider.
    assert (E : ts_eqb (first_of_month m) (first_of_month m) = true)
      by now apply ts_eqb_eq.
    now rewrite E.
Qed.

(** Clearing the three multiselects and widening the range of months never
    removes a row from the filtered table. *)
Theorem dff_cleared_is_largest (df_long : list LongRow) (w : Sidebar)
    (a b : Timestamp) (n : nat) :
  selectable df_long w ->
  ts_leb a (start_m w) = true -> ts_leb (end_m w) b = true ->
  incl (dff df_long w) (dff df_long (mkSidebar a b [] [] [] n)).
Proof.
  intros (Ht & Hc & Hs) Ha Hb r Hr.
  unfold dff in *. apply filter_In in Hr. destruct Hr as [Hin Hmask].
  apply filter_In. split; [exact Hin|].
  unfold mask in *. simpl. rewrite !andb_true_iff in Hmask.
  destruct Hmask as ((((M1 & M2) & Mt) & Mc) & Ms).
  assert (Hopt : forall x picked options,
             incl picked options ->
             isin String.eqb x (multiselect_all picked options) = true ->
             isin String.eqb x (multiselect_all [] options) = true).
  { intros x picked options Hincl Hx.
    apply (isin_In String.eqb string_eqb_eq) in Hx.
    apply (isin_In String.eqb string_eqb_eq).
    now apply (multiselect_all_incl _ _ Hincl). }
  rewrite (ts_leb_trans _ _ _ Ha M1), (ts_leb_trans _ _ _ M2 Hb).
  rewrite (Hopt _ _ _ Ht Mt), (Hopt _ _ _ Hc Mc), (Hopt _ _ _ Hs Ms).
  reflexivity.
Qed.
End FirstRun.

Lemma first_run_empty_sheet_witness :
  to_long empty_sheet = inr ([], []) /\ first_run empty_sheet = inl NoMonthStop.
Proof.
  assert (Hok : to_long empty_sheet = inr ([], [])) by (vm_compute; reflexivity).
  split; [exact Hok|].
  apply (proj2 (first_run_empty_sheet empty_sheet [] [] Hok)). reflexivity.
Defined.

Lemma first_run_one_month_witness :
  to_long january_sheet
  = inr ([Scenario.row "A" "J1" "Svc1" Scenario.jan 100], [Scenario.jan])
  /\ first_run january_sheet = inl SliderStop.
Proof.
  assert (Hok : to_long january_sheet
                = inr ([Scenario.row "A" "J1" "Svc1" Scenario.jan 100],
                       [Scenario.jan])) by (vm_compute; reflexivity).
  split; [exact Hok|].
  apply (proj2 (first_run_one_month january_sheet _ _ Hok)).
  now exists Scenario.jan.
Defined.

(** A sheet with a column named [Value] is refused by [melt]. *)
Example value_column_error :
  to_long value_sheet = inl ValueNameClash
  /\ first_run value_sheet = inl (SchemaStop ValueNameClash).
Proof. split; vm_compute; reflexivity. Qed.

Lemma to_long_months_witness :
  to_long Scenario.wide = inr (Scenario.long, Scenario.months)
  /\ StronglySorted (fun a b => ts_ltb a b = true) Scenario.months.
Proof.
  assert (Hok : to_long Scenario.wide = inr (Scenario.long, Scenario.months))
    by (vm_compute; reflexivity).
  split; [exact Hok|].
  exact (proj1 (to_long_months Scenario.wide Scenario.long Scenario.months
                  Hok)).
Defined.

Lemma first_run_keeps_rows_witness :
  to_long Scenario.wide = inr (Scenario.long, Scenario.months)
  /\ forall r, In r Scenario.long ->
       notna (Data_type r) = true -> notna (Client r) = true ->
       notna (Job_description r) = true ->
       In r (dff Scenario.long
               (initial_sidebar Scenario.long (Scenario.jan, Scenario.feb))).
Proof.
  assert (Hok : to_long Scenario.wide = inr (Scenario.long, Scenario.months))
    by (vm_compute; reflexivity).
  split; [exact Hok|].
  refine (proj2 (proj2 (proj2 (proj2 (proj2
            (first_run_keeps_rows Scenario.wide Scenario.long Scenario.months
               Scenario.jan Scenario.feb (Scenario.jan, Scenario.feb)
               Hok _ _ _)))))); reflexivity.
Defined.

Lemma dff_cleared_is_largest_witness :
  incl (dff Scenario.long
          (mkSidebar Scenario.feb Scenario.feb ["T1"%string] ["A"%string] [] 5))
       (dff Scenario.long (mkSidebar Scenario.jan Scenario.feb [] [] [] 5)).
Proof.
  apply dff_cleared_is_largest.
  - repeat split; intros x Hx; vm_compute in Hx |- *; tauto.
  - reflexivity.
  - reflexivity.
Defined.

(** ** Groups of cells *)

Lemma cell_eqb_refl (a : cell) : cell_eqb a a = true.
Proof.
  destruct a as [|q|s]; simpl;
    [reflexivity | apply Qeq_bool_refl | apply String.eqb_refl].
Qed.

Lemma cell_eqb_sym (a b : cell) : cell_eqb a b = true -> cell_eqb b a = true.
Proof.
  destruct a as [|q|s], b as [|q'|s']; simpl; try discriminate; try tauto.
  - apply Qeq_bool_sym.
  - now rewrite String.eqb_sym.
Qed.

Lemma cell_eqb_trans (a b c : cell) :
  cell_eqb a b = true -> cell_eqb b c = true -> cell_eqb a c = true.
Proof.
  destruct a as [|q|s], b as [|q'|s'], c as [|q''|s'']; simpl;
    try discriminate; try tauto.
  - apply Qeq_bool_trans.
  - rewrite !String.eqb_eq. congruence.
Qed.

Section EquivalentKeys.
Context {K : Type} (eqb leb : K -> K -> bool) (key : LongRow -> option K).
Hypothesis eqb_refl : forall x, eqb x x = true.
Hypothesis eqb_sym : forall x y, eqb x y = true -> eqb y x = true.
Hypothesis eqb_trans :
  forall x y z, eqb x y = true -> eqb y z = true -> eqb x z = true.

(** Keys that are pairwise different for [eqb]. *)
Definition distinct_keys : list K -> Prop :=
  ForallOrdPairs (fun a b => eqb a b = false).

Lemma eqb_false_sym (x y : K) : eqb x y = false -> eqb y x = false.
Proof.
  intro E. destruct (eqb y x) eqn:E'; [|reflexivity].
  apply eqb_sym in E'. congruence.
Qed.

Lemma distinct_keys_perm (l l' : list K) :
  Permutation l l' -> distinct_keys l -> distinct_keys l'.
Proof.
  unfold distinct_keys.
  induction 1 as [|x l l' Hp IH|x y l|l l' l'' Hp1 IH1 Hp2 IH2]; intro Hd.
  - exact Hd.
  - inversion Hd as [|? ? Hx Hl]; subst.
    constructor; [|now apply IH].
    eapply Permutation_Forall; eassumption.
  - inversion Hd as [|? ? Hy Hxl]; subst.
    inversion Hxl as [|? ? Hx Hl]; subst.
    inversion Hy as [|? ? Hyx Hyl]; subst.
    constructor; [|now constructor].
    constructor; [now apply eqb_false_sym | exact Hx].
  - now apply IH2, IH1.
Qed.

Lemma unique_acc_distinct (l seen : list K) :
  distinct_keys (unique_acc eqb seen l)
  /\ Forall (fun y => isin eqb y seen = false) (unique_acc eqb seen l).
Proof.
  revert seen. induction l as [|x l IH]; intro seen; simpl.
  - split; constructor.
  - destruct (isin eqb x seen) eqn:E; [apply IH|].
    destruct (IH (x :: seen)) as [Hd Hs]. split.
    + constructor; [|exact Hd].
      eapply Forall_impl; [|exact Hs].
      intros y Hy. simpl in Hy. apply orb_false_iff in Hy.
      now apply eqb_false_sym.
    + constructor; [exact E|].
      eapply Forall_impl; [|exact Hs].
      intros y Hy. simpl in Hy. now apply orb_false_iff in Hy.
Qed.

Lemma unique_acc_covers (l seen : list K) (x : K) :
  In x l ->
  isin eqb x seen = true
  \/ exists y, In y (unique_acc eqb seen l) /\ eqb x y = true.
Proof.
  revert seen. induction l as [|h l IH]; intros seen Hin; simpl in *.
  - destruct Hin.
  - destruct Hin as [->|Hin].
    + destruct (isin eqb x seen) eqn:E; [now left|].
      right. exists x. split; [now left | apply eqb_refl].
    + destruct (isin eqb h seen) eqn:E; [now apply IH|].
      destruct (IH (h :: seen) Hin) as [Hs|[y [Hy Hxy]]].
      * simpl in Hs. apply orb_true_iff in Hs. destruct Hs as [Hs|Hs].
        -- right. exists h. split; [now left | exact Hs].
        -- now left.
      * right. exists y. split; [now right | exact Hxy].
Qed.

Lemma group_keys_distinct (rows : list LongRow) :
  distinct_keys (group_keys eqb leb key rows).
Proof.
  unfold group_keys.
  eapply distinct_keys_perm; [apply Permutation_sym, sorted_perm|].
  apply unique_acc_distinct.
Qed.

Lemma group_keys_cover (rows : list LongRow) (r : LongRow) (kr : K) :
  In r rows -> key r = Some kr ->
  exists k, In k (group_keys eqb leb key rows) /\ eqb kr k = true.
Proof.
  intros Hr Hk.
  assert (Hin : In kr (present_keys key rows))
    by (apply (present_keys_In eqb); eauto).
  destruct (unique_acc_covers _ [] _ Hin) as [Hs|[y [Hy Hxy]]];
    [discriminate|].
  exists y. split; [|exact Hxy]. unfold group_keys. now apply sorted_In.
Qed.

Lemma group_keys_present (rows : list LongRow) (k : K) :
  In k (group_keys eqb leb key rows) ->
  exists r, In r rows /\ key r = Some k /\ in_group eqb key k r = true.
Proof.
  unfold group_keys. intro Hk. apply sorted_In in Hk.
  apply unique_acc_incl in Hk. apply (present_keys_In eqb) in Hk.
  destruct Hk as [r [Hr Hkey]]. exists r. split; [exact Hr|].
  split; [exact Hkey|]. unfold in_group. rewrite Hkey. apply eqb_refl.
Qed.

(** The rows that have a key split into the groups of any list of pairwise
    different keys that covers them. *)
Lemma sum_over_distinct_keys (ks : list K) (rows : list LongRow) :
  distinct_keys ks ->
  (forall r, In r rows ->
     exists kr, key r = Some kr /\ exists k, In k ks /\ eqb kr k = true) ->
  exact_sum rows
  == sumQ (map (fun k => exact_sum (filter (in_group eqb key k) rows))
             ks).
Proof.
  intro Hd. revert rows.
  induction Hd as [|k ks Hk Hd IH]; intros rows Hcov.
  - destruct rows as [|r rows]; [reflexivity|].
    destruct (Hcov r (or_introl eq_refl)) as (kr & _ & k & [] & _).
  - simpl. rewrite sumQ_cons.
    rewrite (exact_sum_split (in_group eqb key k) rows).
    apply Qplus_comp; [reflexivity|].
    rewrite IH.
    + apply Qeq_of_eq. f_equal. apply map_ext_in. intros k' Hk'.
      f_equal. apply filter_nested_ext.
      intros r _ Hg. unfold in_group in *.
      destruct (key r) as [kr|]; [|discriminate].
      destruct (eqb kr k) eqn:E; [|reflexivity].
      exfalso. rewrite Forall_forall in Hk. specialize (Hk k' Hk').
      assert (Hkk : eqb k k' = true)
        by (eapply eqb_trans; [apply eqb_sym; exact E | exact Hg]).
      congruence.
    + intros r Hr. apply filter_In in Hr. destruct Hr as [Hr Hng].
      destruct (Hcov r Hr) as (kr & Ekr & k0 & [<-|Hin] & Hk0).
      * unfold in_group in Hng. rewrite Ekr, Hk0 in Hng. discriminate.
      * eauto.
Qed.

(** The sum of a column is the sum of the sums of the groups plus the sum
    over the rows that have no key. *)
Lemma sum_groups_and_rest (rows : list LongRow) :
  exact_sum rows
  == sumQ (map (fun k => exact_sum (filter (in_group eqb key k) rows))
             (group_keys eqb leb key rows))
     + exact_sum (filter (fun r => negb match key r with
                                   | Some _ => true
                                   | None => false
                                   end) rows).
Proof.
  set (has_key := fun r => match key r with Some _ => true | None => false end).
  rewrite (exact_sum_split has_key rows).
  apply Qplus_comp; [|reflexivity].
  rewrite (sum_over_distinct_keys (group_keys eqb leb key rows)).
  - apply Qeq_of_eq. f_equal. apply map_ext. intro k.
    f_equal. apply filter_nested_ext.
    intros r _ Hg. unfold in_group in Hg. unfold has_key.
    destruct (key r); [reflexivity | discriminate].
  - apply group_keys_distinct.
  - intros r Hr. apply filter_In in Hr. destruct Hr as [Hr Hk].
    unfold has_key in Hk. destruct (key r) as [kr|] eqn:E; [|discriminate].
    exists kr. split; [reflexivity|]. now apply (group_keys_cover rows r).
Qed.
End EquivalentKeys.

Lemma sumQ_perm (l l' : list Q) : Permutation l l' -> sumQ l == sumQ l'.
Proof.
  induction 1 as [|x l l' Hp IH|x y l|l l' l'' Hp1 IH1 Hp2 IH2].
  - reflexivity.
  - rewrite !sumQ_cons, IH. reflexivity.
  - rewrite !sumQ_cons. ring.
  - now rewrite IH1.
Qed.

Lemma present_keys_cells (f : LongRow -> cell) (rows : list LongRow) :
  present_keys (fun r => cell_key (f r)) rows = filter notna (map f rows).
Proof.
  induction rows as [|r rows IH]; simpl.
  - reflexivity.
  - destruct (f r); simpl; now rewrite IH.
Qed.

Lemma exact_sum_nonpos (rows : list LongRow) :
  (forall r, In r rows -> positive r = false) ->
  exact_sum rows <= 0.
Proof.
  induction rows as [|r rows IH]; intro Hall.
  - apply Qle_refl.
  - rewrite exact_sum_cons.
    assert (Hr : positive r = false) by (apply Hall; now left).
    assert (Hrest : exact_sum rows <= 0)
      by (apply IH; intros r' Hr'; apply Hall; now right).
    unfold positive in Hr. destruct (Value r) as [q|].
    + apply ReferenceFacts.Qltb_false in Hr. lra.
    + lra.
Qed.

Lemma exact_sum_positive (rows : list LongRow) :
  rows <> [] -> (forall r, In r rows -> positive r = true) ->
  0 < exact_sum rows.
Proof.
  assert (Hnonneg : forall rows, (forall r, In r rows -> positive r = true) ->
                                 0 <= exact_sum rows).
  { induction rows0 as [|r rows0 IH]; intro Hall.
    - apply Qle_refl.
    - rewrite exact_sum_cons.
      assert (Hr : positive r = true) by (apply Hall; now left).
      assert (Hrest : 0 <= exact_sum rows0)
        by (apply IH; intros r' Hr'; apply Hall; now right).
      unfold positive, Qltb in Hr. destruct (Value r) as [q|]; [|discriminate].
      apply negb_true_iff in Hr.
      assert (Hq : 0 < q).
      { apply Qnot_le_lt. intro Hle. apply Qle_bool_iff in Hle. congruence. }
      lra. }
  destruct rows as [|r rows]; [congruence|]. intros _ Hall.
  rewrite exact_sum_cons.
  assert (Hr : positive r = true) by (apply Hall; now left).
  assert (Hrest : 0 <= exact_sum rows)
    by (apply Hnonneg; intros r' Hr'; apply Hall; now right).
  unfold positive, Qltb in Hr. destruct (Value r) as [q|]; [|discriminate].
  apply negb_true_iff in Hr.
  assert (Hq : 0 < q).
  { apply Qnot_le_lt. intro Hle. apply Qle_bool_iff in Hle. congruence. }
  lra.
Qed.

(** ** Cards, rankings and charts *)

Lemma filter_none {A : Type} (f : A -> bool) (l : list A) :
  (forall x, In x l -> f x = false) -> filter f l = [].
Proof.
  induction l as [|x l IH]; intro H; simpl.
  - reflexivity.
  - rewrite (H x (or_introl eq_refl)). apply IH. intros y Hy. apply H. now right.
Qed.

Lemma insert_rank_length {A : Type} (frame : list A) :
  length (insert_rank frame) = length frame.
Proof.
  unfold insert_rank. rewrite length_combine, length_seq. apply Nat.min_id.
Qed.

Lemma insert_sorted_map {A B : Type} (f : A -> B) (leb : B -> B -> bool)
    (leb' : A -> A -> bool) (x : A) (l : list A) :
  (forall a b, leb' a b = leb (f a) (f b)) ->
  map f (insert_sorted leb' x l) = insert_sorted leb (f x) (map f l).
Proof.
  intro H. induction l as [|y l IH]; simpl.
  - reflexivity.
  - rewrite H. destruct (leb (f x) (f y)); simpl; [reflexivity|].
    now rewrite IH.
Qed.

Lemma sorted_map {A B : Type} (f : A -> B) (leb : B -> B -> bool)
    (leb' : A -> A -> bool) (l : list A) :
  (forall a b, leb' a b = leb (f a) (f b)) ->
  map f (sorted leb' l) = sorted leb (map f l).
Proof.
  intro H. induction l as [|x l IH]; simpl.
  - reflexivity.
  - rewrite (insert_sorted_map f leb leb' _ _ H). now rewrite IH.
Qed.

Lemma in_firstn {A : Type} (n : nat) (l : list A) (x : A) :
  In x (firstn n l) -> In x l.
Proof.
  intro H. rewrite <- (firstn_skipn n l). apply in_or_app. now left.
Qed.

Lemma filter_perm_length {A : Type} (f : A -> bool) (l l' : list A) :
  Permutation l l' -> length (filter f l) = length (filter f l').
Proof.
  induction 1 as [|x l l' Hp IH|x y l|l l' l'' Hp1 IH1 Hp2 IH2]; simpl.
  - reflexivity.
  - destruct (f x); simpl; now rewrite IH.
  - destruct (f x), (f y); reflexivity.
  - now rewrite IH1.
Qed.

Lemma filter_map_length {A B : Type} (f : B -> bool) (g : A -> B)
    (l : list A) :
  length (filter f (map g l)) = length (filter (fun x => f (g x)) l).
Proof.
  induction l as [|x l IH]; simpl.
  - reflexivity.
  - destruct (f (g x)); simpl; now rewrite IH.
Qed.

(** The chart of the top services shows the first [n] rows of the table of
    the Services tab, in the same order and with the same Usage and Revenue;
    the table numbers its rows from 1 and its columns Jobs and Usage
    agree. *)
Theorem service_stats_and_chart (dff : list LongRow) (n : nat) :
  map (fun x => to_usage (snd x)) (head n (service_stats dff))
  = top_services_usage dff n
  /\ map fst (service_stats dff) = seq 1 (length (service_stats dff))
  /\ (forall x, In x (service_stats dff) -> ss_Jobs (snd x) = ss_Usage (snd x)).
Proof.
  split; [|split].
  - unfold service_stats, top_services_usage, usage_population, head.
    rewrite <- (map_map snd to_usage), <- firstn_map, insert_rank_snd.
    rewrite <- firstn_map. f_equal.
    rewrite (sorted_map to_usage usage_revenue_geb stats_geb)
      by reflexivity.
    f_equal. unfold service_usage. now rewrite map_map.
  - unfold service_stats. now rewrite insert_rank_fst, insert_rank_length.
  - intros x Hx. unfold service_stats, insert_rank in Hx.
    destruct x as [rank s]. apply in_combine_r in Hx. apply sorted_In in Hx.
    apply in_map_iff in Hx. destruct Hx as [g [<- _]]. reflexivity.
Qed.

(** ** Counting groups *)

Section CountingKeys.
Context {K : Type} (eqb leb : K -> K -> bool) (key : LongRow -> option K).
Hypothesis eqb_refl : forall x, eqb x x = true.
Hypothesis eqb_sym : forall x y, eqb x y = true -> eqb y x = true.
Hypothesis eqb_trans :
  forall x y z, eqb x y = true -> eqb y z = true -> eqb x z = true.

(** Pairwise different keys, each equal to some key of a second list, are
    no more than the keys of that list. *)
Lemma distinct_keys_length (l1 l2 : list K) :
  distinct_keys eqb l1 ->
  (forall x, In x l1 -> exists y, In y l2 /\ eqb x y = true) ->
  (length l1 <= length l2)%nat.
Proof.
  intro Hd. revert l2. induction Hd as [|x l1 Hx Hd IH]; intros l2 Hcov.
  - simpl. lia.
  - destruct (Hcov x (or_introl eq_refl)) as [y [Hy Hxy]].
    apply in_split in Hy. destruct Hy as (a & b & ->).
    rewrite length_app. simpl.
    assert (Hle : (length l1 <= length (a ++ b))%nat).
    { apply IH. intros z Hz.
      destruct (Hcov z (or_intror Hz)) as [y' [Hy' Hzy']].
      apply in_elt_inv in Hy'. destruct Hy' as [<-|Hy'].
      - exfalso. rewrite Forall_forall in Hx. specialize (Hx z Hz).
        assert (Hxz : eqb x z = true)
          by (eapply eqb_trans; [exact Hxy | now apply eqb_sym]).
        congruence.
      - eauto. }
    rewrite length_app in Hle. lia.
Qed.

Lemma group_keys_of_filter (p : LongRow -> bool) (rows : list LongRow) :
  (length (group_keys eqb leb key (filter p rows))
   <= length (group_keys eqb leb key rows))%nat.
Proof.
  apply distinct_keys_length.
  - now apply group_keys_distinct.
  - intros k Hk.
    apply (group_keys_present eqb leb key eqb_refl) in Hk.
    destruct Hk as (r & Hr & Hkey & _). apply filter_In in Hr.
    destruct Hr as [Hr _].
    now apply (group_keys_cover eqb leb key eqb_refl rows r).
Qed.
End CountingKeys.

Lemma nunique_group_keys (f : LongRow -> cell) (rows : list LongRow) :
  nunique (map f rows)
  = length (group_keys cell_eqb cell_leb (fun r => cell_key (f r)) rows).
Proof.
  unfold nunique, group_keys. now rewrite sorted_length, present_keys_cells.
Qed.

Lemma service_stats_length (dff : list LongRow) :
  length (service_stats dff)
  = length (group_keys cell_eqb cell_leb
              (fun r => cell_key (Job_description r)) (usage_population dff)).
Proof.
  unfold service_stats, usage_population, groupby.
  now rewrite insert_rank_length, sorted_length, !length_map.
Qed.

(** The table of the Services tab never has more rows than the card of the
    services counts, and has exactly as many when no row has a positive
    value; the chart of the top services has at most [n] bars and no more
    than the table has rows. *)
Theorem service_stats_rows (dff : list LongRow) (n : nat) :
  (length (service_stats dff) <= n_services dff)%nat
  /\ (filter positive dff = [] -> length (service_stats dff) = n_services dff)
  /\ length (top_services_usage dff n)
     = min n (length (service_stats dff)).
Proof.
  unfold n_services. rewrite nunique_group_keys, service_stats_length.
  split; [|split].
  - unfold usage_population. destruct (is_empty (filter positive dff)).
    + lia.
    + apply group_keys_of_filter;
        [apply cell_eqb_refl | apply cell_eqb_sym | apply cell_eqb_trans].
  - intro Hnone. unfold usage_population. now rewrite Hnone.
  - unfold top_services_usage, head, service_usage, groupby.
    now rewrite length_firstn, sorted_length, !length_map.
Qed.

Section NoData.
Context `{RT : Runtime}.

(** A first run ends on the warning that no data was found only when every
    long row has a blank Data type, Client or Job description. *)
Theorem first_run_no_data (df : DataFrame) (long : list LongRow)
    (months : list Timestamp) :
  to_long df = inr (long, months) ->
  first_run df = inl NoDataStop ->
  data df <> []
  /\ forall r, In r long ->
       Data_type r = NaN \/ Client r = NaN \/ Job_description r = NaN.
Proof.
  intros Hok Hrun. unfold first_run in Hrun. rewrite Hok in Hrun.
  destruct (py_min months) as [a|] eqn:Hmin; [|discriminate].
  destruct (py_max months) as [b|] eqn:Hmax; [|discriminate].
  split.
  { intro Hnil.
    apply (proj2 (proj1 (to_long_no_rows df long months Hok))) in Hnil.
    rewrite Hnil in Hmin. discriminate. }
  intros r Hr.
  destruct (months_bound_rows df long months a b Hok Hmin Hmax)
    as (Ha & Hb & Hrange).
  destruct (month_slider a b None) as [range|] eqn:Hslider; [|discriminate].
  unfold month_slider in Hslider. rewrite Ha, Hb in Hslider.
  destruct (ts_eqb a b); [discriminate|]. injection Hslider as <-.
  destruct (Data_type r) eqn:Et; [now left| |];
    (destruct (Client r) eqn:Ec; [right; now left| |]);
    (destruct (Job_description r) eqn:Es; [right; now right| |]);
    exfalso;
    (assert (Hin : In r (dff long (initial_sidebar long (a, b))));
     [ unfold initial_sidebar; simpl;
       rewrite <- dff_cleared; destruct (Hrange r Hr) as [H1 H2];
       apply dff_cleared_keeps; try assumption;
       rewrite ?Et, ?Ec, ?Es; reflexivity
     | destruct (dff long (initial_sidebar long (a, b)));
       [destruct Hin | discriminate] ]).
Qed.
End NoData.

Lemma first_run_no_data_witness :
  first_run anonymous_sheet = inl NoDataStop
  /\ data anonymous_sheet <> [].
Proof.
  assert (Hok : to_long anonymous_sheet
                = inr ([mkLongRow NaN (Text "J1") (Text "Svc1") (Text "T1")
                          Scenario.jan (Some 100);
                        mkLongRow NaN (Text "J1") (Text "Svc1") (Text "T1")
                          Scenario.feb (Some 50)],
                       Scenario.months)) by (vm_compute; reflexivity).
  assert (Hrun : first_run anonymous_sheet = inl NoDataStop)
    by (vm_compute; reflexivity).
  split; [exact Hrun|].
  exact (proj1 (first_run_no_data anonymous_sheet _ _ Hok Hrun)).
Defined.

(** ** Sums, rankings and charts *)

Lemma cell_key_Some (c k : cell) : cell_key c = Some k -> c = k /\ k <> NaN.
Proof.
  destruct c as [|q|s]; simpl; intro E;
    [discriminate | injection E as <- | injection E as <-];
    (split; [reflexivity | discriminate]).
Qed.

Lemma cell_key_notna (c : cell) : c <> NaN -> cell_key c = Some c.
Proof. destruct c; [congruence | reflexivity..]. Qed.

Lemma group_keys_cells (f : LongRow -> cell) (rows : list LongRow)
    (k : cell) :
  In k (group_keys cell_eqb cell_leb (fun r => cell_key (f r)) rows) ->
  k <> NaN /\ In k (map f rows).
Proof.
  intro Hk.
  apply (group_keys_present cell_eqb cell_leb _ cell_eqb_refl) in Hk.
  destruct Hk as (r & Hr & Hkey & _). apply cell_key_Some in Hkey.
  destruct Hkey as [<- Hn]. split; [exact Hn | now apply in_map].
Qed.

Section Aggregates.
Context `{RT : Runtime}.

Lemma groupby_sum_keys {K : Type} (eqb leb : K -> K -> bool)
    (key : LongRow -> option K) (rows : list LongRow) :
  map fst (groupby_sum eqb leb key rows) = group_keys eqb leb key rows.
Proof.
  unfold groupby_sum, groupby. rewrite !map_map. simpl. apply map_id.
Qed.

Lemma groupby_sum_In {K : Type} (eqb leb : K -> K -> bool)
    (key : LongRow -> option K) (rows : list LongRow) (k : K) (v : Q) :
  In (k, v) (groupby_sum eqb leb key rows)
  <-> In k (group_keys eqb leb key rows)
      /\ v = Group_sum (map Value (filter (in_group eqb key k) rows)).
Proof.
  unfold groupby_sum, groupby. rewrite map_map. simpl. rewrite in_map_iff.
  split.
  - intros (k' & E & Hk). injection E as <- <-. now split.
  - intros (Hk & ->). now exists k.
Qed.

Lemma service_usage_keys (tmp : list LongRow) :
  map su_service (service_usage tmp)
  = group_keys cell_eqb cell_leb (fun r => cell_key (Job_description r)) tmp.
Proof.
  unfold service_usage, groupby. rewrite !map_map. simpl. apply map_id.
Qed.

Lemma service_usage_cover (tmp : list LongRow) (r : LongRow) :
  In r tmp -> Job_description r <> NaN ->
  exists s, In s (service_usage tmp)
            /\ cell_eqb (Job_description r) (su_service s) = true.
Proof.
  intros Hr Hn.
  destruct (group_keys_cover cell_eqb cell_leb
              (fun r => cell_key (Job_description r)) cell_eqb_refl tmp r
              (Job_description r) Hr (cell_key_notna _ Hn))
    as (k & Hk & Hrk).
  rewrite <- service_usage_keys in Hk. apply in_map_iff in Hk.
  destruct Hk as (s & <- & Hs). now exists s.
Qed.

(** C6, as amended: when the additions of the total and of every month
    lose nothing, the total revenue of a long table is the exact sum of its
    values, [line_revenue_by_month] has one row for each month of the table,
    in ascending order, with the exact sum of the values of that month, and
    the total is the sum of these monthly values.  The sums of the code are
    sums of floats, rounded at each addition, and without the condition the
    total and the monthly values can disagree. *)
Theorem revenue_total_by_month (rows : list LongRow) :
  series_exact rows ->
  month_sums_exact rows ->
  let m := line_revenue_by_month rows in
  revenue_total rows == exact_sum rows
  /\ StronglySorted (fun a b => ts_ltb a b = true) (map fst m)
  /\ (forall t, In t (map fst m) <-> In t (map Month rows))
  /\ (forall t v, In (t, v) m -> v == exact_sum (rows_of_month t rows))
  /\ revenue_total rows == sumQ (map snd m).
Proof.
  intros Htotal Hmonths m.
  set (key := fun r : LongRow => Some (Month r)).
  assert (Hkeys : map fst m = group_keys ts_eqb ts_leb key rows)
    by apply groupby_sum_keys.
  assert (Hmem : forall t, In t (map fst m) <-> In t (map Month rows)).
  { intro t. rewrite Hkeys, (group_keys_In ts_eqb ts_leb key ts_eqb_eq).
    rewrite in_map_iff. unfold key.
    split; intros (r & H1 & H2); exists r; split; congruence || assumption. }
  split; [exact Htotal|]. split.
  { rewrite Hkeys.
    assert (Hs : StronglySorted (fun a b => ts_leb a b = true /\ a <> b)
                   (group_keys ts_eqb ts_leb key rows)).
    { apply StronglySorted_strict.
      - apply sorted_sorted; [apply ts_leb_trans | tauto | apply ts_leb_total].
      - apply (group_keys_NoDup ts_eqb ts_leb key ts_eqb_eq). }
    eapply StronglySorted_weaken; [|exact Hs].
    intros a b [Hle Hne]. now apply ts_leb_neq_ltb. }
  split; [exact Hmem|]. split.
  { intros t v Hin. apply groupby_sum_In in Hin. destruct Hin as [Hk ->].
    apply Hmonths, Hmem. rewrite Hkeys. exact Hk. }
  transitivity (exact_sum rows); [exact Htotal|].
  rewrite (sum_over_groups ts_eqb key ts_eqb_eq
             (group_keys ts_eqb ts_leb key rows)).
  - unfold m, line_revenue_by_month, groupby_sum, groupby.
    rewrite !map_map. simpl. apply sumQ_map_ext_in.
    intros k Hk. symmetry. apply Hmonths, Hmem. rewrite Hkeys. exact Hk.
  - apply (group_keys_NoDup ts_eqb ts_leb key ts_eqb_eq).
  - intros r Hr. exists (Month r). split; [reflexivity|].
    apply (group_keys_In ts_eqb ts_leb key ts_eqb_eq). eauto.
Qed.



(** When the additions lose nothing, the revenue card is the sum of the
    Revenue column of the customer ranking plus the values of the rows of
    which the Client is blank; the two totals agree when no Client is
    blank. *)
Theorem revenue_card_and_ranking (dff : list LongRow) :
  series_exact dff ->
  client_sums_exact dff ->
  revenue_total dff
  == sumQ (map (fun x => snd (snd x)) (cust dff))
     + exact_sum (filter (fun r => negb (notna (Client r))) dff)
  /\ ((forall r, In r dff -> Client r <> NaN) ->
      revenue_total dff == sumQ (map (fun x => snd (snd x)) (cust dff))).
Proof.
  intros Htotal Hclients.
  set (key := fun r : LongRow => cell_key (Client r)).
  assert (Hsum : sumQ (map (fun x => snd (snd x)) (cust dff))
                 == sumQ (map (fun k => exact_sum (rows_of_client k dff))
                            (group_keys cell_eqb cell_leb key dff))).
  { rewrite <- (map_map snd snd). unfold cust. rewrite insert_rank_snd.
    rewrite (sumQ_perm _ _ (Permutation_map snd
                              (sort_values_desc_perm (client_rev dff)))).
    unfold client_rev, groupby_sum, groupby. rewrite !map_map. simpl.
    apply sumQ_map_ext_in. intros k Hk.
    apply group_keys_cells in Hk. destruct Hk as [Hn Hc].
    now apply Hclients. }
  assert (Hall : revenue_total dff
                 == sumQ (map (fun x => snd (snd x)) (cust dff))
                    + exact_sum
                        (filter (fun r => negb (notna (Client r))) dff)).
  { rewrite Hsum. transitivity (exact_sum dff); [exact Htotal|].
    rewrite (sum_groups_and_rest cell_eqb cell_leb key
               cell_eqb_refl cell_eqb_sym cell_eqb_trans dff).
    apply Qplus_comp; [reflexivity|].
    apply Qeq_of_eq. f_equal. apply filter_ext.
    intro r. unfold key. now destruct (Client r). }
  split; [exact Hall|].
  intro Hno. rewrite Hall.
  rewrite filter_none.
  - simpl. ring.
  - intros r Hr. specialize (Hno r Hr). now destruct (Client r).
Qed.

(** The card of the customers counts the rows of the customer ranking of
    which the Revenue is positive; the ranking has one row per distinct
    Client that is not blank; and when the sums of the clients are exact,
    the card shows 0 if no row has a positive value. *)
Theorem n_clients_bounds (dff : list LongRow) :
  n_clients dff
  = length (filter (fun x : nat * (cell * Q) => Qltb 0 (snd (snd x)))
              (cust dff))
  /\ (n_clients dff <= length (cust dff))%nat
  /\ length (cust dff) = nunique (map Client dff)
  /\ (client_sums_exact dff -> filter positive dff = [] ->
      n_clients dff = O).
Proof.
  assert (Hlen : length (cust dff) = length (client_rev dff)).
  { unfold cust. now rewrite insert_rank_length, sort_values_desc_length. }
  split; [|split; [|split]].
  - unfold n_clients.
    rewrite <- (filter_map_length (fun g : cell * Q => Qltb 0 (snd g)) snd).
    unfold cust. rewrite insert_rank_snd.
    apply filter_perm_length, Permutation_sym, sort_values_desc_perm.
  - rewrite Hlen. unfold n_clients. apply filter_length_le.
  - rewrite Hlen. unfold client_rev, groupby_sum, groupby, group_keys, nunique.
    rewrite !length_map, sorted_length. now rewrite present_keys_cells.
  - intros Hexact Hnone. unfold n_clients. rewrite filter_none; [reflexivity|].
    intros [k v] Hg. simpl.
    apply groupby_sum_In in Hg. destruct Hg as [Hk ->].
    apply group_keys_cells in Hk. destruct Hk as [Hn Hc].
    assert (Hle : Group_sum (map Value (rows_of_client k dff)) <= 0).
    { pose proof (Hexact k Hc Hn) as Heq. unfold group_exact in Heq.
      rewrite Heq.
      apply exact_sum_nonpos. intros r Hr. apply filter_In in Hr.
      destruct Hr as [Hr _].
      destruct (positive r) eqn:E; [|reflexivity].
      assert (Hin : In r (filter positive dff))
        by (apply filter_In; now split).
      rewrite Hnone in Hin. destruct Hin. }
    unfold Qltb. apply negb_false_iff. now apply Qle_bool_iff.
Qed.

(** The Overview tab shows the notice instead of the chart exactly when no
    row has a positive value; the chart it draws otherwise is built from
    the rows of positive value alone, never from the fallback to all the
    rows, has a bar for every service of such a row up to [n] bars, and when
    the sums of the services are exact every service on it has a positive
    revenue. *)
Theorem overview_services_positive (dff : list LongRow) (n : nat) :
  (overview_services dff n = None <-> filter positive dff = [])
  /\ forall g, overview_services dff n = Some g ->
       g = firstn n (sorted usage_revenue_geb
                       (service_usage (filter positive dff)))
       /\ length g
          = min n (nunique (map Job_description (filter positive dff)))
       /\ (service_sums_exact (filter positive dff) ->
           forall s, In s g -> 0 < Revenue s).
Proof.
  unfold overview_services. split.
  - destruct (filter positive dff); simpl; split; congruence.
  - intros g Hg.
    assert (Hpop : usage_population dff = filter positive dff).
    { unfold usage_population. destruct (filter positive dff); simpl in *;
        [discriminate | reflexivity]. }
    destruct (is_empty (filter positive dff)); [discriminate|].
    injection Hg as <-.
    unfold top_services_usage, head. rewrite Hpop.
    split; [reflexivity|]. split.
    { rewrite length_firstn, sorted_length.
      rewrite <- (length_map su_service), service_usage_keys.
      now rewrite nunique_group_keys. }
    intros Hexact s Hs.
    apply in_firstn, sorted_In in Hs.
    assert (Hk : In (su_service s)
                   (group_keys cell_eqb cell_leb
                      (fun r => cell_key (Job_description r))
                      (filter positive dff)))
      by (rewrite <- service_usage_keys; now apply in_map).
    unfold service_usage, groupby in Hs. rewrite map_map in Hs.
    apply in_map_iff in Hs. destruct Hs as [k [<- _]]. simpl in *.
    pose proof (group_keys_cells _ _ _ Hk) as [Hn Hc].
    apply (group_keys_present cell_eqb cell_leb _ cell_eqb_refl) in Hk.
    destruct Hk as (r & Hr & _ & Hgr).
    fold (rows_of_service k (filter positive dff)).
    pose proof (Hexact k Hc Hn) as Heq. unfold group_exact in Heq.
    rewrite Heq.
    apply exact_sum_positive.
    + intro Hnil.
      assert (Hin : In r (rows_of_service k (filter positive dff)))
        by (apply filter_In; now split).
      rewrite Hnil in Hin. destruct Hin.
    + intros r' Hr'. apply filter_In in Hr'. destruct Hr' as [Hr' _].
      now apply filter_In in Hr'.
Qed.

(** The chart of the services that the Overview tab draws from the filtered
    table of a loaded sheet, for a selection that the widgets can return
    and a top [n] of at least 1, is never empty, and every bar stands for a
    Job description, not blank, of a row of positive value that passed the
    filter. *)
Theorem overview_chart_not_empty (df_long : list LongRow) (w : Sidebar)
    (g : list ServiceUsage) :
  loaded df_long -> selectable df_long w -> (1 <= top_n w)%nat ->
  overview_services (dff df_long w) (top_n w) = Some g ->
  g <> []
  /\ forall s, In s g ->
       su_service s <> NaN
       /\ exists r, In r (dff df_long w) /\ positive r = true
                    /\ Job_description r = su_service s.
Proof.
  intros Hload Hsel Hn Hg. unfold overview_services in Hg.
  set (table := dff df_long w) in *.
  assert (Hpop : usage_population table = filter positive table).
  { unfold usage_population.
    destruct (filter positive table); simpl in *; [discriminate | reflexivity]. }
  destruct (filter positive table) as [|r pos] eqn:Epos; [discriminate|].
  cbn [is_empty] in Hg. injection Hg as <-.
  unfold top_services_usage, head. rewrite Hpop. split.
  - assert (Hr : In r (filter positive table))
      by (rewrite Epos; now left).
    pose proof Hr as Hr'. apply filter_In in Hr'. destruct Hr' as [Hin _].
    destruct (dff_no_blank df_long w r Hload Hsel Hin) as (_ & _ & Hd).
    rewrite <- Epos.
    destruct (service_usage_cover _ r Hr Hd) as (s & Hs & _).
    apply nonempty_length. rewrite length_firstn, sorted_length.
    destruct (service_usage (filter positive table));
      [destruct Hs | simpl; lia].
  - intros s Hs. rewrite <- Epos in Hs.
    apply in_firstn, sorted_In in Hs.
    assert (Hk : In (su_service s)
                   (group_keys cell_eqb cell_leb
                      (fun r => cell_key (Job_description r))
                      (filter positive table)))
      by (rewrite <- service_usage_keys; now apply in_map).
    apply (group_keys_present cell_eqb cell_leb _ cell_eqb_refl) in Hk.
    destruct Hk as (r' & Hr' & Hkey & _).
    apply cell_key_Some in Hkey. destruct Hkey as [E Hne].
    split; [exact Hne|]. exists r'.
    apply filter_In in Hr'. destruct Hr' as [Hin Hp]. now repeat split.
Qed.
End Aggregates.

(** ** The worked example, run *)

(** On the tables of the examples the sums are exact. *)
Ltac sum_is_exact := vm_compute; reflexivity.

Lemma scenario_sums_exact :
  series_exact Scenario.long /\ month_sums_exact Scenario.long
  /\ client_sums_exact Scenario.long
  /\ service_sums_exact (filter positive Scenario.long).
Proof.
  split; [sum_is_exact|]. split; [|split].
  - intros m Hm. simpl in Hm.
    destruct Hm as [<-|[<-|[<-|[<-|[]]]]]; sum_is_exact.
  - intros c Hc _. simpl in Hc.
    destruct Hc as [<-|[<-|[<-|[<-|[]]]]]; sum_is_exact.
  - intros c Hc _. simpl in Hc.
    destruct Hc as [<-|[<-|[]]]; sum_is_exact.
Defined.

Lemma revenue_total_by_month_witness :
  series_exact Scenario.long /\ month_sums_exact Scenario.long
  /\ revenue_total Scenario.long
     == sumQ (map snd (line_revenue_by_month Scenario.long)).
Proof.
  destruct scenario_sums_exact as (Htotal & Hmonths & _).
  split; [exact Htotal|]. split; [exact Hmonths|].
  exact (proj2 (proj2 (proj2 (proj2
           (revenue_total_by_month Scenario.long Htotal Hmonths))))).
Defined.

(** C6, as stated, fails: on the sheet with the refund the float additions
    of the total give 3.5, while the values of the two months are
    10000000000000002 and -9999999999999998, which add up to 4. *)
Lemma revenue_total_rounded :
  to_long Rounding.wide = inr (Rounding.long, Scenario.months)
  /\ revenue_total Rounding.long = 7 # 2
  /\ line_revenue_by_month Rounding.long
     = [(Scenario.jan, inject_Z 10000000000000002);
        (Scenario.feb, inject_Z (-9999999999999998))]
  /\ sumQ (map snd (line_revenue_by_month Rounding.long)) == 4
  /\ ~ revenue_total Rounding.long
       == sumQ (map snd (line_revenue_by_month Rounding.long)).
Proof.
  split; [vm_compute; reflexivity|]. split; [vm_compute; reflexivity|].
  split; [vm_compute; reflexivity|]. split; [vm_compute; reflexivity|].
  vm_compute. discriminate.
Qed.

(** On the same sheet the revenue card shows 3.5 and the customer ranking
    the revenues 3 and 0. *)
Example rounding_card_and_ranking :
  card_revenue (metrics Rounding.long) = 7 # 2
  /\ cust Rounding.long
     = [(1%nat, (Text "B", 3)); (2%nat, (Text "A", 0))].
Proof. split; vm_compute; reflexivity. Qed.

(** On an int64 column the sums wrap around: two positive values of
    [2 ^ 62] give the client and the service a negative revenue, the card of
    the customers counts no client, and the chart of the services shows the
    negative revenue. *)
Example overflow_card_and_chart :
  filter positive Overflow.rows = Overflow.rows
  /\ @client_rev int64_runtime Overflow.rows
     = [(Text "A", inject_Z (- 2 ^ 63))]
  /\ @n_clients int64_runtime Overflow.rows = O
  /\ @overview_services int64_runtime Overflow.rows 5
     = Some [mkServiceUsage (Text "Svc1") 1 (inject_Z (- 2 ^ 63))].
Proof. repeat split; vm_compute; reflexivity. Qed.


(** Under the stable sort the clients A and B of equal revenue keep the
    order of their groups. *)
Example top_clients_stable :
  top_clients Ties.rows 2 = [(1%nat, (Text "C", 9)); (2%nat, (Text "A", 5))]
  /\ cust Ties.rows
     = [(1%nat, (Text "C", 9)); (2%nat, (Text "A", 5));
        (3%nat, (Text "B", 5))].
Proof. split; vm_compute; reflexivity. Qed.



(** With every value at 0 all the rows are aggregated: the service used by
    two jobs comes first. *)
Example all_zero_services :
  top_services_usage Scenario.all_zero 5
  = [mkServiceUsage (Text "Svc2") 2 0; mkServiceUsage (Text "Svc1") 1 0].
Proof. vm_compute. reflexivity. Qed.

Lemma revenue_card_and_ranking_witness :
  series_exact Scenario.long /\ client_sums_exact Scenario.long
  /\ (forall r, In r Scenario.long -> Client r <> NaN)
  /\ revenue_total Scenario.long
     == sumQ (map (fun x => snd (snd x)) (cust Scenario.long)).
Proof.
  destruct scenario_sums_exact as (Htotal & _ & Hclients & _).
  assert (Hno : forall r, In r Scenario.long -> Client r <> NaN)
    by (simpl; intros r [<-|[<-|[<-|[<-|[]]]]]; discriminate).
  split; [exact Htotal|]. split; [exact Hclients|]. split; [exact Hno|].
  exact (proj2 (revenue_card_and_ranking Scenario.long Htotal Hclients) Hno).
Defined.

Lemma n_clients_bounds_witness :
  client_sums_exact Scenario.all_zero
  /\ filter positive Scenario.all_zero = []
  /\ n_clients Scenario.all_zero = O.
Proof.
  assert (Hexact : client_sums_exact Scenario.all_zero).
  { intros c Hc _. simpl in Hc.
    destruct Hc as [<-|[<-|[<-|[]]]]; sum_is_exact. }
  assert (Hnone : filter positive Scenario.all_zero = []) by reflexivity.
  split; [exact Hexact|]. split; [exact Hnone|].
  exact (proj2 (proj2 (proj2 (n_clients_bounds Scenario.all_zero)))
           Hexact Hnone).
Defined.

Lemma overview_services_positive_witness :
  service_sums_exact (filter positive Scenario.long)
  /\ exists g, overview_services Scenario.long 5 = Some g
               /\ forall s, In s g -> 0 < Revenue s.
Proof.
  destruct scenario_sums_exact as (_ & _ & _ & Hservices).
  split; [exact Hservices|].
  eexists. split; [vm_compute; reflexivity|].
  refine (proj2 (proj2 (proj2 (overview_services_positive Scenario.long 5)
                          _ _)) Hservices).
  vm_compute. reflexivity.
Defined.

Lemma overview_chart_not_empty_witness :
  loaded Scenario.long
  /\ exists g,
       overview_services
         (dff Scenario.long
            (initial_sidebar Scenario.long (Scenario.jan, Scenario.feb))) 10
       = Some g
       /\ g <> [].
Proof.
  assert (Hload : loaded Scenario.long)
    by (intros r [<-|[<-|[<-|[<-|[]]]]]; repeat split; discriminate).
  split; [exact Hload|].
  eexists. split; [vm_compute; reflexivity|].
  refine (proj1 (overview_chart_not_empty Scenario.long
                   (initial_sidebar Scenario.long (Scenario.jan, Scenario.feb))
                   _ Hload _ _ _)).
  - repeat split; apply incl_refl.
  - simpl. lia.
  - vm_compute. reflexivity.
Defined.

Lemma service_stats_rows_witness :
  filter positive Scenario.all_zero = []
  /\ length (service_stats Scenario.all_zero) = n_services Scenario.all_zero.
Proof.
  assert (Hnone : filter positive Scenario.all_zero = []) by reflexivity.
  split; [exact Hnone|].
  exact (proj1 (proj2 (service_stats_rows Scenario.all_zero 5)) Hnone).
Defined.

(** The first run on the example sheet: 150 of revenue, one client with a
    positive revenue, two services and two jobs. *)
Example first_run_of_scenario :
  first_run Scenario.wide = inr (mkMetrics 150 1 2 2).
Proof. vm_compute. reflexivity. Qed.

(** The table of the Services tab for the example: one service of positive
    value. *)
Example service_stats_of_scenario :
  service_stats Scenario.long
  = [(1%nat, mkServiceStats (Text "Svc1") 150 1 1 1)].
Proof. vm_compute. reflexivity. Qed.
